(** * Verification of [src/inspection.ts]

    A shallow embedding of the commit-message inspection engine
    (opinionated-commit-message) and proofs about it.

    JavaScript strings are sequences of UTF-16 code units; every [length],
    character class and [split] of the source works on code units, so a
    string is modelled as [list N].  Regular expressions are embedded as
    syntax trees and run by a backtracking matcher with the priorities of
    the ECMAScript matcher (greedy quantifiers, leftmost start index). *)

From Stdlib Require Import Ascii String DecimalString.
From Stdlib Require DecimalFacts DecimalNat.
From Stdlib Require Import List NArith Bool Arith Lia Sorted.
Import ListNotations.

Set Implicit Arguments.

(** ** JavaScript strings *)

Module JS.

(** A code unit and a string of code units. *)
Abbreviation char := N (only parsing).
Abbreviation str := (list N) (only parsing).

(** An ASCII literal of the source, as code units. *)
Definition lit (s : string) : str := map N_of_ascii (list_ascii_of_string s).

(** The double quote, kept apart from the literals. *)
Definition dq : str := [34%N].

Definition str_eqb (a b : str) : bool :=
  if list_eq_dec N.eq_dec a b then true else false.

(** [s.endsWith(c)] for a one-unit search string. *)
Fixpoint endsWithChar (c : char) (s : str) : bool :=
  match s with
  | [] => false
  | [x] => N.eqb x c
  | _ :: s' => endsWithChar c s'
  end.

(** Template-literal conversion of a length: its decimal digits. *)
Definition ofNat (n : nat) : str := lit (NilEmpty.string_of_uint (Nat.to_uint n)).

(** WhiteSpace and LineTerminator code points: the class [\s] and what
    [String.prototype.trim] removes. *)
Definition isWhiteSpace (c : char) : bool :=
  ((9 <=? c) && (c <=? 13) || (c =? 32) || (c =? 160) || (c =? 5760)
   || (8192 <=? c) && (c <=? 8202) || (c =? 8232) || (c =? 8233)
   || (c =? 8239) || (c =? 8287) || (c =? 12288) || (c =? 65279))%N.

Fixpoint trimStart (s : str) : str :=
  match s with
  | c :: s' => if isWhiteSpace c then trimStart s' else s
  | [] => []
  end.

Definition trim (s : str) : str := rev (trimStart (rev (trimStart s))).

(** [s.split(sep)] for a one-unit separator: always at least one piece. *)
Fixpoint split (sep : char) (s : str) : list str :=
  match s with
  | [] => [[]]
  | c :: s' =>
      if N.eqb c sep then [] :: split sep s'
      else match split sep s' with
           | l :: ls => (c :: l) :: ls
           | [] => [[c]]
           end
  end.

Arguments endsWithChar c%_N s.
Arguments split sep%_N s.

(** *** [JSON.stringify] of a string

    QuoteJSONString of ECMAScript 2019: the short escapes, [\uXXXX] for the
    other control characters and for surrogates without their pair. *)

Definition hexDigit (d : N) : char := (if d <? 10 then 48 + d else 87 + d)%N.

Definition unicodeEscape (c : char) : str :=
  lit "\u" ++ [hexDigit (c / 4096 mod 16); hexDigit (c / 256 mod 16);
               hexDigit (c / 16 mod 16); hexDigit (c mod 16)]%N.

Definition isLeadSurrogate (c : char) : bool := ((55296 <=? c) && (c <=? 56319))%N.
Definition isTrailSurrogate (c : char) : bool := ((56320 <=? c) && (c <=? 57343))%N.

Fixpoint quoteBody (s : str) : str :=
  match s with
  | [] => []
  | c :: s' =>
      if (c =? 8)%N then lit "\b" ++ quoteBody s'
      else if (c =? 9)%N then lit "\t" ++ quoteBody s'
      else if (c =? 10)%N then lit "\n" ++ quoteBody s'
      else if (c =? 12)%N then lit "\f" ++ quoteBody s'
      else if (c =? 13)%N then lit "\r" ++ quoteBody s'
      else if (c =? 34)%N then lit "\" ++ dq ++ quoteBody s'
      else if (c =? 92)%N then lit "\\" ++ quoteBody s'
      else if (c <? 32)%N then unicodeEscape c ++ quoteBody s'
      else if isLeadSurrogate c then
        match s' with
        | d :: s'' =>
            if isTrailSurrogate d then c :: d :: quoteBody s''
            else unicodeEscape c ++ quoteBody s'
        | [] => unicodeEscape c
        end
      else if isTrailSurrogate c then unicodeEscape c ++ quoteBody s'
      else c :: quoteBody s'
  end.

Definition JSON_stringify (s : str) : str := dq ++ quoteBody s ++ dq.

(** *** Case conversion *)

Definition isUpper (c : char) : bool := ((65 <=? c) && (c <=? 90))%N.
Definition isLower (c : char) : bool := ((97 <=? c) && (c <=? 122))%N.
Definition isDigit (c : char) : bool := ((48 <=? c) && (c <=? 57))%N.
Definition isAscii (c : char) : bool := (c <? 128)%N.

Definition lowerAscii (c : char) : char := if isUpper c then (c + 32)%N else c.

End JS.

Import JS.

(** ** Regular expressions

    The patterns of the source use character classes, concatenation, the
    greedy quantifiers [?], [*] and [+], one capturing group and the
    assertions [^] and [$] (without the multiline flag). *)

Module Regex.

Inductive regex : Type :=
| Eps
| Class (p : char -> bool)
| Seq (r1 r2 : regex)
| Opt (r : regex)
| Star (r : regex)
| Group (i : nat) (r : regex)
| Bol
| Eol.

Definition Plus (r : regex) : regex := Seq r (Star r).

Definition Chr (c : char) : regex := Class (N.eqb c).
Arguments Chr c%_N.

(** A literal run of pattern characters. *)
Fixpoint Str (s : str) : regex :=
  match s with
  | [] => Eps
  | c :: s' => Seq (Chr c) (Str s')
  end.

(** Matcher state: the index reached in the input, the input that is left
    and the captures recorded so far (latest first). *)
Record state : Type := State {
  pos : nat;
  rest : str;
  caps : list (nat * str)
}.

Definition capture (i : nat) (from to : state) : state :=
  {| pos := pos to; rest := rest to;
     caps := (i, firstn (pos to - pos from) (rest from)) :: caps to |}.

Definition orElse {A} (x y : option A) : option A :=
  match x with Some _ => x | None => y end.

(** Greedy iteration.  An iteration that consumes nothing is rejected, as
    in the ECMAScript matcher, so the input left bounds the iterations. *)
Definition starLoop {A} (m : state -> (state -> option A) -> option A)
    (k : state -> option A) : nat -> state -> option A :=
  fix loop (n : nat) (st : state) : option A :=
    match n with
    | O => k st
    | S n' =>
        orElse
          (m st (fun st' =>
                   if length (rest st') <? length (rest st)
                   then loop n' st' else None))
          (k st)
    end.

(** Backtracking matcher in continuation-passing style: [run r st k] is the
    first success, in the matcher's priority order, of [k] on a state that
    [r] can reach from [st]. *)
Fixpoint run {A} (r : regex) (st : state) (k : state -> option A) : option A :=
  match r with
  | Eps => k st
  | Class p =>
      match rest st with
      | c :: s' =>
          if p c then k {| pos := S (pos st); rest := s'; caps := caps st |}
          else None
      | [] => None
      end
  | Seq r1 r2 => run r1 st (fun st1 => run r2 st1 k)
  | Opt r' => orElse (run r' st k) (k st)
  | Star r' => starLoop (run r') k (length (rest st)) st
  | Group i r' => run r' st (fun st' => k (capture i st st'))
  | Bol => if pos st =? 0 then k st else None
  | Eol => match rest st with [] => k st | _ :: _ => None end
  end.

(** What the matcher can do, without its priorities: [Steps r st st'] when
    [r] can take the matcher from [st] to [st']. *)
Inductive Steps : regex -> state -> state -> Prop :=
| StepsEps st : Steps Eps st st
| StepsClass p st c s' :
    rest st = c :: s' -> p c = true ->
    Steps (Class p) st {| pos := S (pos st); rest := s'; caps := caps st |}
| StepsSeq r1 r2 st st1 st2 :
    Steps r1 st st1 -> Steps r2 st1 st2 -> Steps (Seq r1 r2) st st2
| StepsOptTake r st st' : Steps r st st' -> Steps (Opt r) st st'
| StepsOptSkip r st : Steps (Opt r) st st
| StepsStarStop r st : Steps (Star r) st st
| StepsStarIter r st st1 st2 :
    Steps r st st1 -> length (rest st1) < length (rest st) ->
    Steps (Star r) st1 st2 -> Steps (Star r) st st2
| StepsGroup i r st st' :
    Steps r st st' -> Steps (Group i r) st (capture i st st')
| StepsBol st : pos st = 0 -> Steps Bol st st
| StepsEol st : rest st = [] -> Steps Eol st st.

(** [Consumes st w st']: the matcher read the units [w] between [st] and
    [st'] and recorded no capture. *)
Definition Consumes (st : state) (w : str) (st' : state) : Prop :=
  rest st = w ++ rest st' /\ pos st' = pos st + length w /\ caps st' = caps st.

(** The state at start index [i], with [s] the input from there on. *)
Definition start (i : nat) (s : str) : state :=
  {| pos := i; rest := s; caps := [] |}.

(** Try the start indices from left to right. *)
Fixpoint searchFrom (r : regex) (i : nat) (s : str) : option (nat * state) :=
  match run r (start i s) (fun st => Some st) with
  | Some st => Some (i, st)
  | None =>
      match s with
      | [] => None
      | _ :: s' => searchFrom r (S i) s'
      end
  end.

Definition search (r : regex) (s : str) : option (nat * state) := searchFrom r 0 s.

(** [re.test(s)] *)
Definition test (r : regex) (s : str) : bool :=
  match search r s with Some _ => true | None => false end.

Fixpoint lookupCap (i : nat) (l : list (nat * str)) : option str :=
  match l with
  | [] => None
  | (j, w) :: l' => if j =? i then Some w else lookupCap i l'
  end.

Fixpoint groupCount (r : regex) : nat :=
  match r with
  | Eps | Class _ | Bol | Eol => 0
  | Seq r1 r2 => groupCount r1 + groupCount r2
  | Opt r' | Star r' => groupCount r'
  | Group _ r' => S (groupCount r')
  end.

(** [re.exec(s)]: the match array, element 0 the whole match and element
    [i] the capture of group [i] ([None] for [undefined]); [None] stands for
    the [null] result. *)
Definition exec (r : regex) (s : str) : option (list (option str)) :=
  match search r s with
  | Some (i, st) =>
      Some (Some (firstn (pos st - i) (skipn i s))
            :: map (fun g => lookupCap g (caps st)) (seq 1 (groupCount r)))
  | None => None
  end.

(** [s.replace(re, repl)] for a pattern without the global flag and a
    replacement without [$] patterns. *)
Definition replace (r : regex) (repl : str) (s : str) : str :=
  match search r s with
  | Some (i, st) => firstn i s ++ repl ++ rest st
  | None => s
  end.

End Regex.

Import Regex.

(** ** Exceptions

    A call either returns or throws an [Error] with a message. *)

Inductive result (A : Type) : Type :=
| Ok (a : A)
| Throw (msg : str).

Arguments Ok {A} a.
Arguments Throw {A} msg.

Definition bind {A B} (x : result A) (f : A -> result B) : result B :=
  match x with
  | Ok a => f a
  | Throw m => Throw m
  end.

Notation "x <- e ;; f" := (bind e (fun x => f))
  (at level 61, e at next level, right associativity).

(** ** [Set<string>]

    A JavaScript [Set] iterates in insertion order, and the pre-condition
    loop of [checkSubject] throws at the first offending entry, so a set is
    the list of its entries in insertion order. *)

Module JSSet.

Definition t := list str.

Definition has (s : t) (x : str) : bool := existsb (str_eqb x) s.

Definition size (s : t) : nat := length (nodup (list_eq_dec N.eq_dec) s).

End JSSet.

(** ** The patterns of [inspection.ts] *)

Notation "a +> b" := (Seq a b) (at level 60, right associativity).

Definition isLetter (c : char) : bool := isLower c || isUpper c.

(** [[a-zA-Z_0-9]] *)
Definition isWordChar (c : char) : bool :=
  isLower c || isUpper c || (c =? 95)%N || isDigit c.

(** [[^ ]] *)
Definition notSpace (c : char) : bool := negb (c =? 32)%N.

(** [[^\000-\037\177 ~^:?*[]]: the octal escapes are the control characters
    0 to 31 and 127. *)
Definition isRefChar (c : char) : bool :=
  negb ((c <=? 31) || (c =? 127) || (c =? 32) || (c =? 126) || (c =? 94)
        || (c =? 58) || (c =? 63) || (c =? 42) || (c =? 91))%N.

(** [/\r$/] *)
Definition trailingCrRe : regex := Chr 13 +> Eol.

(** The pattern of [capitalizedWordRe]: the start of the input, group 1
    holding one of [A-Z] and then [a-z] any number of times, and one more
    unit that is not in [a-zA-Z]. *)
Definition capitalizedWordRe : regex :=
  Bol +> Group 1 (Class isUpper +> Star (Class isLower))
      +> Class (fun c => negb (isLetter c)).

(** [\s?\(\s*#[a-zA-Z_0-9]+\s*\)$] *)
Definition suffixHashCodeRe : regex :=
  Opt (Class isWhiteSpace) +> Chr 40 +> Star (Class isWhiteSpace) +> Chr 35
    +> Plus (Class isWordChar) +> Star (Class isWhiteSpace) +> Chr 41 +> Eol.

(** [^[^ ]+://[^ ]+$] *)
Definition urlLineRe : regex :=
  Bol +> Plus (Class notSpace) +> Str (lit "://") +> Plus (Class notSpace) +> Eol.

(** [^\[[^\]]+]\s*:\s*[^ ]+://[^ ]+$] *)
Definition linkDefinitionRe : regex :=
  Bol +> Chr 91 +> Plus (Class (fun c => negb (c =? 93)%N)) +> Chr 93
      +> Star (Class isWhiteSpace) +> Chr 58 +> Star (Class isWhiteSpace)
      +> Plus (Class notSpace) +> Str (lit "://") +> Plus (Class notSpace) +> Eol.

(** [^Merge branch '[^\000-\037\177 ~^:?*[]+' into [^\000-\037\177 ~^:?*[]+$] *)
Definition mergeMessageRe : regex :=
  Bol +> Str (lit "Merge branch '") +> Plus (Class isRefChar)
      +> Str (lit "' into ") +> Plus (Class isRefChar) +> Eol.

(** ** Splitting the message *)

Record SubjectBody : Type := {
  subject : str;
  bodyLines : list str
}.

Record MaybeSubjectBody : Type := {
  subjectBody : option SubjectBody;
  errors : list str
}.

Definition splitLines (message : str) : list str :=
  map (replace trailingCrRe []) (split 10 message).

Definition tooFewLinesError (n : nat) : str :=
  lit "Expected at least three lines (subject, empty, body), " ++
  lit "but got: " ++ ofNat n.

Definition tooFewLinesMultiError (n : nat) : str :=
  lit "Expected at least three lines (subject, empty, body) " ++
  lit "in a multi-line message, but got: " ++ ofNat n.

Definition separatorError (n : nat) : str :=
  lit "Expected an empty line between the subject and the body, " ++
  lit "but got a second line of length: " ++ ofNat n.

Definition splitSubjectBody (lines : list str) : MaybeSubjectBody :=
  if (length lines =? 0) || (length lines =? 1) then
    {| subjectBody := None; errors := [tooFewLinesError (length lines)] |}
  else if length lines =? 2 then
    {| subjectBody := None; errors := [tooFewLinesMultiError (length lines)] |}
  else
    {| subjectBody :=
         Some {| subject := nth 0 lines []; bodyLines := skipn 2 lines |};
       errors :=
         if negb (length (nth 1 lines []) =? 0)
         then [separatorError (length (nth 1 lines []))]
         else [] |}.

(** ** The checks *)

Section Inspection.

(** [mostFrequentEnglishVerbs.SET]: the table lives in another module,
    [mostFrequentEnglishVerbs.ts]; here it is a parameter. *)
Variable SET : JSSet.t.

(** [String.prototype.toLowerCase] on strings with a code unit outside
    ASCII follows the Unicode case tables of the runtime, a parameter; on
    ASCII strings it maps [A-Z] to [a-z] and is modelled in full. *)
Variable unicodeToLowerCase : str -> str.

Definition toLowerCase (s : str) : str :=
  if forallb isAscii s then map lowerAscii s else unicodeToLowerCase s.

(** A method call on an element of a match array: [undefined] has no
    properties, the call throws a [TypeError]. *)
Definition callToLowerCase (w : option str) : result str :=
  match w with
  | Some s => Ok (toLowerCase s)
  | None => Throw (lit "Cannot read property 'toLowerCase' of undefined")
  end.

(** The word in a sentence: it is quoted after [toLowerCase] was called on
    it, so it is a string by then. *)
Definition orEmpty (w : option str) : str :=
  match w with Some s => s | None => [] end.

(** The pre-condition loop of [checkSubject]. *)
Fixpoint checkAdditionalVerbs (verbs : list str) : result unit :=
  match verbs with
  | [] => Ok tt
  | verb :: verbs' =>
      if length verb =? 0 then
        Throw (lit "Unexpected empty additional verb")
      else if negb (str_eqb verb (toLowerCase verb)) then
        Throw (lit "All additional verbs expected in lower case, but got: "
               ++ verb)
      else checkAdditionalVerbs verbs'
  end.

Definition subjectLengthError (subject subjectWoCode : str) : str :=
  lit "The subject exceeds the limit of 50 characters " ++
  lit "(got: " ++ ofNat (length subject) ++ lit ", JSONified: " ++
  JSON_stringify subjectWoCode ++ lit ")".

Definition capitalizedVerbError : str :=
  lit "The subject must start with a capitalized verb (e.g., " ++
  dq ++ lit "Change" ++ dq ++ lit ").".

Definition imperativeMoodPrefix (word : str) : str :=
  lit "The subject must start in imperative mood with one of the " ++
  lit "most frequent English verbs, but got: " ++ JSON_stringify word ++
  lit ". " ++ lit "Please see " ++
  lit "https://github.com/mristin/opinionated-commit-message/blob/master/" ++
  lit "src/mostFrequentEnglishVerbs.ts ".

Definition imperativeMoodError (word : str) : str :=
  imperativeMoodPrefix word ++ lit "for a complete list.".

Definition imperativeMoodErrorAdditional (word : str) : str :=
  imperativeMoodPrefix word ++ lit "for a complete list and " ++
  lit "also revisit your list of additional verbs.".

Definition trailingDotError : str :=
  lit "The subject must not end with a dot ('.').".

Definition checkSubject (subject : str) (additionalVerbs : JSSet.t)
  : result (list str) :=
  _ <- checkAdditionalVerbs additionalVerbs ;;
  let subjectWoCode := replace suffixHashCodeRe [] subject in
  let errors1 :=
    if 50 <? length subjectWoCode
    then [subjectLengthError subject subjectWoCode] else [] in
  errors2 <-
    match exec capitalizedWordRe subjectWoCode with
    | None => Ok (errors1 ++ [capitalizedVerbError])
    | Some m =>
        if length m <? 2 then
          Throw (lit "Expected at least one group to match the first capitalized word, "
                 ++ lit "but got none.")
        else
          let word := nth 1 m None in
          lowered <- callToLowerCase word ;;
          if negb (JSSet.has SET lowered)
             && negb (JSSet.has additionalVerbs lowered)
          then
            if JSSet.size additionalVerbs =? 0
            then Ok (errors1 ++ [imperativeMoodError (orEmpty word)])
            else Ok (errors1 ++ [imperativeMoodErrorAdditional (orEmpty word)])
          else Ok errors1
    end ;;
  if endsWithChar 46 subjectWoCode
  then Ok (errors2 ++ [trailingDotError])
  else Ok errors2.

Definition emptyBodyError : str :=
  lit "At least one line is expected in the body, but got empty body.".

Definition blankBodyError : str := lit "Unexpected empty body".

Definition bodyLineLengthError (i : nat) (line : str) : str :=
  lit "The line " ++ ofNat (i + 3) ++ lit " of the message (line " ++
  ofNat (i + 1) ++ lit " of the body) " ++
  lit "exceeds the limit of 72 characters. " ++
  lit "The line contains " ++ ofNat (length line) ++ lit " characters: " ++
  JSON_stringify line ++ lit ".".

Definition duplicateWordError (subjectFirstWord : str) : str :=
  lit "The first word of the subject " ++
  lit "(" ++ JSON_stringify subjectFirstWord ++ lit ") " ++
  lit "must not match " ++ lit "the first word of the body.".

(** The loop over [bodyLines.entries()], from body index [i] on. *)
Fixpoint checkBodyLines (i : nat) (lines : list str) : list str :=
  match lines with
  | [] => []
  | line :: lines' =>
      (if test urlLineRe line || test linkDefinitionRe line then []
       else if 72 <? length line then [bodyLineLengthError i line]
       else [])
      ++ checkBodyLines (S i) lines'
  end.

Definition checkBody (subject : str) (bodyLines : list str)
  : result (list str) :=
  if length bodyLines =? 0 then Ok [emptyBodyError]
  else if (length bodyLines =? 1) && str_eqb (trim (nth 0 bodyLines [])) []
  then Ok [blankBodyError]
  else
    let errors1 := checkBodyLines 0 bodyLines in
    match exec capitalizedWordRe (nth 0 bodyLines []) with
    | Some bodyFirstWordMatch =>
        let bodyFirstWord := nth 1 bodyFirstWordMatch None in
        match exec capitalizedWordRe subject with
        | Some subjectFirstWordMatch =>
            if 0 <? length subjectFirstWordMatch then
              let subjectFirstWord := nth 1 subjectFirstWordMatch None in
              a <- callToLowerCase subjectFirstWord ;;
              b <- callToLowerCase bodyFirstWord ;;
              if str_eqb a b
              then Ok (errors1 ++ [duplicateWordError (orEmpty subjectFirstWord)])
              else Ok errors1
            else Ok errors1
        | None => Ok errors1
        end
    | None => Ok errors1
    end.

Definition messageEmptyError : str := lit "The message is empty.".

(** The post-condition loop of [check]. *)
Fixpoint checkPostCondition (errors : list str) : result unit :=
  match errors with
  | [] => Ok tt
  | error :: errors' =>
      if endsWithChar 10 error then
        Throw (lit "Unexpected error ending in a new-line character: " ++ error)
      else checkPostCondition errors'
  end.

Definition check (message : str) (additionalVerbs : JSSet.t)
    (allowOneLiners : bool) : result (list str) :=
  if test mergeMessageRe message then Ok []
  else
    let lines := splitLines message in
    if length lines =? 0 then Ok [messageEmptyError]
    else
      errors <-
        (if (length lines =? 1) && allowOneLiners then
           checkSubject (nth 0 lines []) additionalVerbs
         else
           let maybeSubjectBody := splitSubjectBody lines in
           if 0 <? length (errors maybeSubjectBody) then
             Ok (errors maybeSubjectBody)
           else
             match subjectBody maybeSubjectBody with
             | None => Throw (lit "Unexpected undefined subjectBody")
             | Some sb =>
                 errors1 <- checkSubject (subject sb) additionalVerbs ;;
                 errors2 <- checkBody (subject sb) (bodyLines sb) ;;
                 Ok (errors1 ++ errors2)
             end) ;;
      _ <- checkPostCondition errors ;;
      Ok errors.

End Inspection.

(** ** What the patterns are meant to accept

    The shapes of strings that the specification describes in words, to
    compare with what the matcher accepts. *)

(** [Merge branch '<ref>' into <ref>] *)
Definition IsMergeMessage (s : str) : Prop :=
  exists ref1 ref2,
    s = lit "Merge branch '" ++ ref1 ++ lit "' into " ++ ref2 /\
    ref1 <> [] /\ ref2 <> [] /\
    forallb isRefChar ref1 = true /\ forallb isRefChar ref2 = true.

(** [scheme://rest-with-no-spaces] *)
Definition IsUrlLine (s : str) : Prop :=
  exists scheme path,
    s = scheme ++ lit "://" ++ path /\
    scheme <> [] /\ path <> [] /\
    forallb notSpace scheme = true /\ forallb notSpace path = true.

(** [[label]: scheme://rest-with-no-spaces], with optional white space
    around the colon. *)
Definition IsLinkDefinition (s : str) : Prop :=
  exists label ws1 ws2 url,
    s = lit "[" ++ label ++ lit "]" ++ ws1 ++ lit ":" ++ ws2 ++ url /\
    label <> [] /\ forallb (fun c => negb (c =? 93)%N) label = true /\
    forallb isWhiteSpace ws1 = true /\ forallb isWhiteSpace ws2 = true /\
    IsUrlLine url.

(** A line that the length rule of the body skips. *)
Definition isExemptLine (line : str) : bool :=
  test urlLineRe line || test linkDefinitionRe line.

(** [w] is the leading capitalized word of [s]: one capital letter, then
    lower-case letters, and right after them a unit that is not a letter. *)
Definition LeadingWord (s w : str) : Prop :=
  exists c lows d tl,
    s = w ++ d :: tl /\ w = c :: lows /\
    isUpper c = true /\ forallb isLower lows = true /\ isLetter d = false.

(** A parenthesized hash code such as [(#43)]. *)
Definition IsHashCode (t : str) : Prop :=
  exists ws1 code ws2,
    t = lit "(" ++ ws1 ++ lit "#" ++ code ++ ws2 ++ lit ")" /\
    forallb isWhiteSpace ws1 = true /\
    code <> [] /\ forallb isWordChar code = true /\
    forallb isWhiteSpace ws2 = true.

(** [subject.replace(suffixHashCodeRe, '')], the stripped subject. *)
Definition stripHashCode (subject : str) : str :=
  Regex.replace suffixHashCodeRe [] subject.

(** The part that [urlLineRe] and [linkDefinitionRe] share, and
    [suffixHashCodeRe] past its optional first unit. *)
Definition urlTail : regex :=
  Plus (Class notSpace) +> Str (lit "://") +> Plus (Class notSpace) +> Eol.

Definition hashCodeTail : regex :=
  Chr 40 +> Star (Class isWhiteSpace) +> Chr 35
    +> Plus (Class isWordChar) +> Star (Class isWhiteSpace) +> Chr 41 +> Eol.

(** ** The sentences that the checks report *)

Inductive SubjectError : str -> Prop :=
| SubjectTooLong subject subjectWoCode :
    SubjectError (subjectLengthError subject subjectWoCode)
| SubjectNotCapitalized : SubjectError capitalizedVerbError
| SubjectNotImperative word : SubjectError (imperativeMoodError word)
| SubjectNotImperativeAdditional word :
    SubjectError (imperativeMoodErrorAdditional word)
| SubjectTrailingDot : SubjectError trailingDotError.

Inductive BodyError : str -> Prop :=
| BodyEmpty : BodyError emptyBodyError
| BodyBlank : BodyError blankBodyError
| BodyLineTooLong i line : BodyError (bodyLineLengthError i line)
| BodyDuplicateWord word : BodyError (duplicateWordError word).

Inductive StructuralError : str -> Prop :=
| TooFewLines n : StructuralError (tooFewLinesError n)
| TooFewLinesMulti n : StructuralError (tooFewLinesMultiError n)
| BadSeparator n : StructuralError (separatorError n).

(** A sentence of one of the three kinds. *)
Definition Violation (e : str) : Prop :=
  StructuralError e \/ SubjectError e \/ BodyError e.

(** The result of a call does not hold the sentence [e]. *)
Definition neverReports (e : str) (r : result (list str)) : Prop :=
  match r with
  | Ok errs => ~ In e errs
  | Throw _ => True
  end.

(** ** The rules of the checks, one by one *)

Section Rules.

Variable SET : JSSet.t.
Variable unicodeToLowerCase : str -> str.

(** An entry that passes the pre-condition of [checkSubject], and a set
    whose entries all do. *)
Definition isValidVerb (verb : str) : bool :=
  negb (length verb =? 0) && str_eqb verb (toLowerCase unicodeToLowerCase verb).

Definition ValidVerbs (verbs : JSSet.t) : Prop :=
  Forall (fun v => v <> [] /\ v = toLowerCase unicodeToLowerCase v) verbs.

Definition lengthRule (subject subjectWoCode : str) : list str :=
  if 50 <? length subjectWoCode
  then [subjectLengthError subject subjectWoCode] else [].

Definition verbRule (additionalVerbs : JSSet.t) (subjectWoCode : str) : list str :=
  match exec capitalizedWordRe subjectWoCode with
  | None => [capitalizedVerbError]
  | Some m =>
      match nth 1 m None with
      | Some word =>
          let lowered := toLowerCase unicodeToLowerCase word in
          if negb (JSSet.has SET lowered) && negb (JSSet.has additionalVerbs lowered)
          then [if JSSet.size additionalVerbs =? 0
                then imperativeMoodError word
                else imperativeMoodErrorAdditional word]
          else []
      | None => []
      end
  end.

Definition dotRule (subjectWoCode : str) : list str :=
  if endsWithChar 46 subjectWoCode then [trailingDotError] else [].

Definition duplicateRule (subject line0 : str) : list str :=
  match exec capitalizedWordRe line0, exec capitalizedWordRe subject with
  | Some mb, Some ms =>
      match nth 1 ms None, nth 1 mb None with
      | Some subjectFirstWord, Some bodyFirstWord =>
          if str_eqb (toLowerCase unicodeToLowerCase subjectFirstWord)
                     (toLowerCase unicodeToLowerCase bodyFirstWord)
          then [duplicateWordError subjectFirstWord] else []
      | _, _ => []
      end
  | _, _ => []
  end.

End Rules.

(** ** Concrete runs

    To run the checks, the parameters are set to a table with the verbs
    that the tests of the repository expect to pass ("Change", "Do" and
    "Unify" open their accepted subjects) and to a case conversion that
    leaves the units outside ASCII alone. *)

Definition sampleVerbs : JSSet.t := [lit "change"; lit "do"; lit "unify"].

Definition asciiOnly (s : str) : str := map lowerAscii s.

Definition checkSample := check sampleVerbs asciiOnly.

(** The line feed that separates the lines of a message. *)
Definition nl : str := [10%N].

(** The body of most tests in [inspection.test.ts], and the URL of some. *)
Definition replacesBody : str :=
  lit "This replaces the SomeClass with OtherClass in all of the module " ++ nl ++
  lit "since Some class was deprecated.".

Definition longUrl : str :=
  lit "http://mristin@some-domain.com/some/very/very/very/very/" ++
  lit "very/very/very/long/path/index.html".


(** ** Messages built from lines

    [lines.join('\n')], the inverse of the splitting, a line without its
    last carriage return, and a message with each line feed turned into a
    carriage return and a line feed. *)

Fixpoint joinLines (lines : list str) : str :=
  match lines with
  | [] => []
  | [l] => l
  | l :: ls => l ++ nl ++ joinLines ls
  end.

Definition dropTrailingCr (line : str) : str :=
  if endsWithChar 13 line then removelast line else line.

Fixpoint toCRLF (message : str) : str :=
  match message with
  | [] => []
  | c :: s' => if (c =? 10)%N then 13%N :: 10%N :: toCRLF s' else c :: toCRLF s'
  end.

(** ** What a message needs to pass

    The conditions under which the subject rules and the body rules have
    nothing to report. *)

Section Accepted.

Variable SET : JSSet.t.
Variable unicodeToLowerCase : str -> str.

Definition SubjectAccepted (verbs : JSSet.t) (subject : str) : Prop :=
  length (stripHashCode subject) <= 50 /\
  (exists w, LeadingWord (stripHashCode subject) w /\
     (In (toLowerCase unicodeToLowerCase w) SET \/
      In (toLowerCase unicodeToLowerCase w) verbs)) /\
  endsWithChar 46 (stripHashCode subject) = false.

Definition BodyAccepted (subject : str) (body : list str) : Prop :=
  body <> [] /\
  ~ (exists line, body = [line] /\ forallb isWhiteSpace line = true) /\
  Forall (fun line => IsUrlLine line \/ IsLinkDefinition line \/ length line <= 72)
         body /\
  ~ (exists ws wb,
       LeadingWord subject ws /\ LeadingWord (nth 0 body []) wb /\
       toLowerCase unicodeToLowerCase ws = toLowerCase unicodeToLowerCase wb).

End Accepted.

(** A unit that is not a control character below the space. *)
Definition isPrintable (c : char) : bool := (32 <=? c)%N.


(** * Facts *)

(** ** Strings and sets *)

Lemma str_eqb_eq a b : str_eqb a b = true <-> a = b.
Proof. unfold str_eqb. destruct (list_eq_dec N.eq_dec a b); split; congruence. Qed.

Lemma str_eqb_refl a : str_eqb a a = true.
Proof. now apply str_eqb_eq. Qed.

Lemma str_eqb_neq a b : str_eqb a b = false <-> a <> b.
Proof. unfold str_eqb. destruct (list_eq_dec N.eq_dec a b); split; congruence. Qed.

Lemma has_In s x : JSSet.has s x = true <-> In x s.
Proof.
  unfold JSSet.has. rewrite existsb_exists. split.
  - intros [y [Hy He]]. apply str_eqb_eq in He. now subst.
  - intros H. exists x. split; [assumption | apply str_eqb_refl].
Qed.

Lemma size_0 s : JSSet.size s = 0 <-> s = [].
Proof.
  unfold JSSet.size. split.
  - destruct s as [|x s]; [reflexivity|]. intros H.
    assert (Hin : In x (nodup (list_eq_dec N.eq_dec) (x :: s)))
      by (apply nodup_In; now left).
    destruct (nodup (list_eq_dec N.eq_dec) (x :: s)); [destruct Hin | discriminate].
  - now intros ->.
Qed.

(** ** The matcher against [Steps] *)

Lemma orElse_Some {A} (x y : option A) a :
  orElse x y = Some a -> x = Some a \/ (x = None /\ y = Some a).
Proof. destruct x; simpl; intros H; [left | right]; auto. Qed.

Lemma orElse_not_None {A} (x y : option A) :
  x <> None \/ y <> None -> orElse x y <> None.
Proof. destruct x; simpl; intros [H|H]; congruence. Qed.

Lemma starLoop_sound {A} (r : regex) (k : state -> option A)
  (IH : forall st (k : state -> option A) a,
      run r st k = Some a -> exists st', Steps r st st' /\ k st' = Some a) :
  forall n st a, starLoop (run r) k n st = Some a ->
    exists st', Steps (Star r) st st' /\ k st' = Some a.
Proof.
  induction n as [|n IHn]; intros st a H; simpl in H.
  - exists st. split; [constructor | assumption].
  - apply orElse_Some in H. destruct H as [H | [_ H]].
    + apply IH in H. destruct H as [st1 [H1 H2]].
      destruct (length (rest st1) <? length (rest st)) eqn:Hlt; [|discriminate].
      apply Nat.ltb_lt in Hlt.
      apply IHn in H2. destruct H2 as [st2 [H2 H3]].
      exists st2. split; [|assumption]. eapply StepsStarIter; eauto.
    + exists st. split; [constructor | assumption].
Qed.

(** Whatever the matcher returns comes from a state the pattern reaches. *)
Theorem run_sound {A} (r : regex) :
  forall st (k : state -> option A) a, run r st k = Some a ->
    exists st', Steps r st st' /\ k st' = Some a.
Proof.
  induction r as [|p|r1 IH1 r2 IH2|r IH|r IH|i r IH| |]; intros st k a H; simpl in H.
  - exists st. split; [constructor | assumption].
  - destruct (rest st) as [|c s'] eqn:Hr; [discriminate|].
    destruct (p c) eqn:Hp; [|discriminate].
    eexists. split; [|eassumption]. econstructor; eauto.
  - apply IH1 in H. destruct H as [st1 [H1 H]].
    apply IH2 in H. destruct H as [st2 [H2 H]].
    exists st2. split; [econstructor; eauto | assumption].
  - apply orElse_Some in H. destruct H as [H | [_ H]].
    + apply IH in H. destruct H as [st' [H1 H2]].
      exists st'. split; [now constructor | assumption].
    + exists st. split; [apply StepsOptSkip | assumption].
  - eapply starLoop_sound; eauto.
  - apply IH in H. destruct H as [st' [H1 H2]].
    eexists. split; [constructor; eassumption | assumption].
  - destruct (pos st =? 0) eqn:Hp; [|discriminate].
    apply Nat.eqb_eq in Hp. exists st. split; [now constructor | assumption].
  - destruct (rest st) eqn:Hr; [|discriminate].
    exists st. split; [now constructor | assumption].
Qed.

Lemma run_complete_fuel (r : regex) st st' :
  Steps r st st' ->
  forall A (k : state -> option A), k st' <> None ->
    run r st k <> None /\
    match r with
    | Star r' => forall n, length (rest st) <= n -> starLoop (run r') k n st <> None
    | _ => True
    end.
Proof.
  induction 1 as [st|p st c s' Hr Hp|r1 r2 st st1 st2 H1 IH1 H2 IH2
                 |r st st' H IH|r st|r st|r st st1 st2 H1 IH1 Hlt H2 IH2
                 |i r st st' H IH|st Hp|st Hr]; intros A k Hk; simpl.
  - auto.
  - rewrite Hr, Hp. auto.
  - split; [|exact I]. apply IH1. apply IH2. assumption.
  - split; [|exact I]. apply orElse_not_None. left. now apply IH.
  - split; [|exact I]. apply orElse_not_None. now right.
  - assert (G : forall n, starLoop (run r) k n st <> None).
    { intros [|n]; simpl; [assumption|]. apply orElse_not_None. now right. }
    split; [apply G | intros n _; apply G].
  - assert (G : forall n, length (rest st) <= n -> starLoop (run r) k n st <> None).
    { intros [|n] Hn; [lia|]. simpl. apply orElse_not_None. left.
      apply IH1. apply Nat.ltb_lt in Hlt as Hlt'. rewrite Hlt'.
      apply (IH2 A k Hk). lia. }
    split; [apply G; lia | exact G].
  - split; [|exact I]. apply IH. assumption.
  - rewrite Hp. simpl. auto.
  - rewrite Hr. auto.
Qed.

(** The matcher finds a match whenever the pattern reaches a state that the
    continuation accepts. *)
Theorem run_complete {A} (r : regex) st st' (k : state -> option A) :
  Steps r st st' -> k st' <> None -> run r st k <> None.
Proof. intros H Hk. now apply (run_complete_fuel H). Qed.

(** ** Building blocks of the patterns *)

Lemma Consumes_nil st : Consumes st [] st.
Proof. unfold Consumes. simpl. repeat split; lia. Qed.

Lemma Consumes_app st w1 st1 w2 st2 :
  Consumes st w1 st1 -> Consumes st1 w2 st2 -> Consumes st (w1 ++ w2) st2.
Proof.
  unfold Consumes. intros [H1 [H2 H3]] [H4 [H5 H6]].
  rewrite H1, H4, length_app, <- app_assoc. repeat split; [lia | congruence].
Qed.

Lemma Consumes_state st w st' :
  Consumes st w st' ->
  st' = {| pos := pos st + length w; rest := rest st'; caps := caps st |}.
Proof. destruct st'. unfold Consumes. simpl. intros [_ [-> ->]]. reflexivity. Qed.

Lemma Steps_Seq r1 r2 st st' :
  Steps (r1 +> r2) st st' <-> exists st1, Steps r1 st st1 /\ Steps r2 st1 st'.
Proof.
  split.
  - intros H. inversion H; subst. eauto.
  - intros [st1 [H1 H2]]. econstructor; eauto.
Qed.

Lemma Steps_Eps st st' : Steps Eps st st' <-> st' = st.
Proof. split; [intros H; now inversion H | intros ->; constructor]. Qed.

Lemma Steps_Bol st st' : Steps Bol st st' <-> st' = st /\ pos st = 0.
Proof. split; [intros H; now inversion H | intros [-> H]; now constructor]. Qed.

Lemma Steps_Eol st st' : Steps Eol st st' <-> st' = st /\ rest st = [].
Proof. split; [intros H; now inversion H | intros [-> H]; now constructor]. Qed.

Lemma Steps_Class p st st' :
  Steps (Class p) st st' <-> exists c, p c = true /\ Consumes st [c] st'.
Proof.
  split.
  - intros H. inversion H; subst. exists c. split; [assumption|].
    unfold Consumes. simpl. repeat split; [assumption | lia].
  - intros [c [Hp Hc]]. rewrite (Consumes_state Hc).
    destruct Hc as [Hr _]. simpl in *. replace (pos st + 1) with (S (pos st)) by lia.
    now apply StepsClass with (c := c).
Qed.

Lemma Steps_Chr c st st' : Steps (Chr c) st st' <-> Consumes st [c] st'.
Proof.
  unfold Chr. rewrite Steps_Class. split.
  - intros [d [Hd H]]. apply N.eqb_eq in Hd. now subst.
  - intros H. exists c. split; [apply N.eqb_refl | assumption].
Qed.

Lemma Steps_Str w st st' : Steps (Str w) st st' <-> Consumes st w st'.
Proof.
  revert st. induction w as [|c w IH]; intros st; simpl.
  - rewrite Steps_Eps. split.
    + intros ->. apply Consumes_nil.
    + intros H. rewrite (Consumes_state H). destruct H as [H _]. simpl in *.
      destruct st; simpl in *. f_equal; [lia | congruence].
  - rewrite Steps_Seq. split.
    + intros [st1 [H1 H2]]. apply Steps_Chr in H1. apply IH in H2.
      apply (Consumes_app H1 H2).
    + intros H. exists {| pos := S (pos st); rest := w ++ rest st'; caps := caps st |}.
      destruct H as [Hr [Hp Hc]]. simpl in *. split.
      * apply Steps_Chr. unfold Consumes. simpl. repeat split; [assumption | lia].
      * apply IH. unfold Consumes. simpl. repeat split; [lia | assumption].
Qed.

Lemma Steps_Star_Class p st st' :
  Steps (Star (Class p)) st st' <->
  exists w, forallb p w = true /\ Consumes st w st'.
Proof.
  split.
  - intros H. remember (Star (Class p)) as r eqn:Hr.
    induction H; try discriminate; injection Hr as ->.
    + exists []. split; [reflexivity | apply Consumes_nil].
    + apply Steps_Class in H. destruct H as [c [Hc H]].
      destruct (IHSteps2 eq_refl) as [w [Hw H']].
      exists (c :: w). split; [simpl; now rewrite Hc |].
      apply (Consumes_app H H').
  - intros [w [Hw H]]. revert st Hw H. induction w as [|c w IH]; intros st Hw H.
    + rewrite (Consumes_state H). destruct H as [H _]. simpl in *.
      replace {| pos := pos st + 0; rest := rest st'; caps := caps st |} with st
        by (destruct st; simpl in *; f_equal; [lia | congruence]).
      constructor.
    + simpl in Hw. apply andb_true_iff in Hw. destruct Hw as [Hc Hw].
      destruct H as [Hr [Hp Hcaps]]. simpl in *.
      apply StepsStarIter with
        (st1 := {| pos := S (pos st); rest := w ++ rest st'; caps := caps st |}).
      * now apply StepsClass with (c := c).
      * simpl. rewrite Hr. simpl. lia.
      * apply IH; [assumption|]. unfold Consumes. simpl.
        repeat split; [lia | assumption].
Qed.

Lemma Steps_Plus_Class p st st' :
  Steps (Plus (Class p)) st st' <->
  exists w, w <> [] /\ forallb p w = true /\ Consumes st w st'.
Proof.
  unfold Plus. rewrite Steps_Seq. split.
  - intros [st1 [H1 H2]]. apply Steps_Class in H1. destruct H1 as [c [Hc H1]].
    apply Steps_Star_Class in H2. destruct H2 as [w [Hw H2]].
    exists (c :: w). split; [discriminate|]. split; [simpl; now rewrite Hc|].
    apply (Consumes_app H1 H2).
  - intros [[|c w] [Hne [Hw H]]]; [congruence|].
    simpl in Hw. apply andb_true_iff in Hw. destruct Hw as [Hc Hw].
    destruct H as [Hr [Hp Hcaps]]. simpl in *.
    exists {| pos := S (pos st); rest := w ++ rest st'; caps := caps st |}. split.
    + now apply StepsClass with (c := c).
    + apply Steps_Star_Class. exists w. split; [assumption|].
      unfold Consumes. simpl. repeat split; [lia | assumption].
Qed.

Lemma Steps_Opt_Class p st st' :
  Steps (Opt (Class p)) st st' <->
  exists w, length w <= 1 /\ forallb p w = true /\ Consumes st w st'.
Proof.
  split.
  - intros H. inversion H as [ | | |r' s1 s2 H2|r' s1| | | | | ]; subst.
    + apply Steps_Class in H2. destruct H2 as [c [Hc H2]].
      exists [c]. simpl. rewrite Hc. auto.
    + exists []. simpl. split; [lia|]. split; [reflexivity | apply Consumes_nil].
  - intros [[|c [|d w]] [Hl [Hw H]]]; simpl in *; [| |lia].
    + replace st' with st; [apply StepsOptSkip|].
      rewrite (Consumes_state H). destruct H as [H _]. simpl in *.
      destruct st; simpl in *; f_equal; [lia | congruence].
    + apply StepsOptTake. apply Steps_Class. exists c.
      rewrite andb_true_r in Hw. auto.
Qed.

(** ** Searching for the first start index *)

Lemma searchFrom_Some r i s j st :
  searchFrom r i s = Some (j, st) ->
  exists d, j = i + d /\ d <= length s /\ Steps r (start j (skipn d s)) st /\
    forall d' st', d' < d -> ~ Steps r (start (i + d') (skipn d' s)) st'.
Proof.
  revert i. induction s as [|c s IH]; intros i H; simpl in H.
  - destruct (run r _ _) as [st0|] eqn:Hrun; [|discriminate].
    injection H as <- <-. apply run_sound in Hrun.
    destruct Hrun as [st' [H1 H2]]. injection H2 as ->.
    exists 0. rewrite Nat.add_0_r. simpl. repeat split; [lia | assumption |].
    intros; lia.
  - destruct (run r _ _) as [st0|] eqn:Hrun.
    + injection H as <- <-. apply run_sound in Hrun.
      destruct Hrun as [st' [H1 H2]]. injection H2 as ->.
      exists 0. rewrite Nat.add_0_r. simpl. repeat split; [lia | assumption |].
      intros; lia.
    + apply IH in H. destruct H as [d [-> [Hd [H1 H2]]]].
      exists (S d). simpl. repeat split; [lia | lia | |].
      * replace (i + S d) with (S i + d) by lia. assumption.
      * intros [|d'] st' Hlt Hs.
        -- rewrite Nat.add_0_r in Hs. simpl in Hs.
           apply (@run_complete _ r _ _ (fun st => Some st)) in Hs; [|discriminate].
           unfold start in *. congruence.
        -- apply (H2 d' st'); [lia|].
           replace (S i + d') with (i + S d') by lia. assumption.
Qed.

Lemma searchFrom_None r i s :
  searchFrom r i s = None ->
  forall d st', d <= length s -> ~ Steps r (start (i + d) (skipn d s)) st'.
Proof.
  revert i. induction s as [|c s IH]; intros i H d st' Hd Hs; simpl in H.
  - simpl in Hd. assert (d = 0) by lia. subst. rewrite Nat.add_0_r in Hs. simpl in Hs.
    apply (@run_complete _ r _ _ (fun st => Some st)) in Hs; [|discriminate].
    unfold start in *. destruct (run r _ _); congruence.
  - destruct (run r _ _) as [st0|] eqn:Hrun; [discriminate|].
    destruct d as [|d].
    + rewrite Nat.add_0_r in Hs. simpl in Hs.
      apply (@run_complete _ r _ _ (fun st => Some st)) in Hs; [|discriminate].
      unfold start in *. congruence.
    + simpl in Hd, Hs. apply (IH (S i) H d st'); [lia|].
      replace (S i + d) with (i + S d) by lia. assumption.
Qed.

(** A pattern that begins with [^] is tried at index 0 only. *)
Lemma search_Bol r s :
  search (Bol +> r) s =
  match run r (start 0 s) (fun st => Some st) with
  | Some st => Some (0, st)
  | None => None
  end.
Proof.
  unfold search.
  assert (G : forall s i, searchFrom (Bol +> r) (S i) s = None).
  { clear s. induction s as [|c s IH]; intros i; simpl; [reflexivity | apply IH]. }
  destruct s as [|c s]; simpl; unfold start.
  - destruct (run r _ _); reflexivity.
  - destruct (run r _ _); [reflexivity | apply G].
Qed.

Lemma test_Bol r s :
  test (Bol +> r) s = true <-> exists st, Steps r (start 0 s) st.
Proof.
  unfold test. rewrite search_Bol. split.
  - destruct (run r _ _) as [st|] eqn:H; [|discriminate]. intros _.
    apply run_sound in H. destruct H as [st' [H _]]. eauto.
  - intros [st H]. apply (@run_complete _ r _ _ (fun st => Some st)) in H; [|discriminate].
    destruct (run r _ _); congruence.
Qed.

(** ** The patterns against their descriptions *)

Lemma Consumes_intro st w s' :
  rest st = w ++ s' ->
  Consumes st w {| pos := pos st + length w; rest := s'; caps := caps st |}.
Proof. intros H. unfold Consumes. simpl. auto. Qed.

Ltac split_seq H :=
  let st := fresh "st" in
  let H1 := fresh "Hs" in
  apply Steps_Seq in H; destruct H as [st [H1 H]].

Ltac next_str :=
  apply Steps_Seq; eexists; split;
  [apply Steps_Str; apply Consumes_intro; simpl rest; reflexivity|].

Ltac next_chr :=
  apply Steps_Seq; eexists; split;
  [apply Steps_Chr; apply Consumes_intro; simpl rest; reflexivity|].

Ltac next_plus w :=
  apply Steps_Seq; eexists; split;
  [apply Steps_Plus_Class; exists w; split; [assumption|]; split; [assumption|];
   apply Consumes_intro; simpl rest; reflexivity|].

Ltac next_star w :=
  apply Steps_Seq; eexists; split;
  [apply Steps_Star_Class; exists w; split; [assumption|];
   apply Consumes_intro; simpl rest; reflexivity|].

Lemma test_mergeMessageRe s : test mergeMessageRe s = true <-> IsMergeMessage s.
Proof.
  unfold mergeMessageRe. rewrite test_Bol. split.
  - intros [st H]. split_seq H. split_seq H. split_seq H. split_seq H.
    apply Steps_Str in Hs, Hs1. apply Steps_Plus_Class in Hs0, Hs2.
    destruct Hs0 as [ref1 [Hn1 [Hf1 Hs0]]]. destruct Hs2 as [ref2 [Hn2 [Hf2 Hs2]]].
    apply Steps_Eol in H. destruct H as [-> Hend].
    exists ref1, ref2. repeat split; try assumption.
    destruct Hs as [Hr _], Hs0 as [Hr0 _], Hs1 as [Hr1 _], Hs2 as [Hr2 _].
    simpl rest in Hr. rewrite Hr, Hr0, Hr1, Hr2, Hend, app_nil_r. reflexivity.
  - intros [ref1 [ref2 [-> [Hn1 [Hn2 [Hf1 Hf2]]]]]].
    eexists. next_str. next_plus ref1. next_str.
    apply Steps_Seq; eexists; split;
      [apply Steps_Plus_Class; exists ref2; split; [assumption|]; split; [assumption|];
       apply Consumes_intro; simpl rest; symmetry; apply app_nil_r|].
    apply Steps_Eol. split; reflexivity.
Qed.

Lemma Steps_urlTail_inv st st' :
  Steps urlTail st st' -> IsUrlLine (rest st).
Proof.
  unfold urlTail. intros H. split_seq H. split_seq H. split_seq H.
  apply Steps_Str in Hs0. apply Steps_Plus_Class in Hs, Hs1.
  destruct Hs as [a [Hn1 [Hf1 Hs]]]. destruct Hs1 as [b [Hn2 [Hf2 Hs1]]].
  apply Steps_Eol in H. destruct H as [-> Hend].
  destruct Hs as [Hr _], Hs0 as [Hr0 _], Hs1 as [Hr1 _].
  exists a, b. repeat split; try assumption.
  rewrite Hr, Hr0, Hr1, Hend, app_nil_r. reflexivity.
Qed.

Lemma Steps_urlTail_intro st :
  IsUrlLine (rest st) -> exists st', Steps urlTail st st'.
Proof.
  unfold urlTail. intros [a [b [Hs [Hn1 [Hn2 [Hf1 Hf2]]]]]].
  eexists.
  apply Steps_Seq; eexists; split;
    [apply Steps_Plus_Class; exists a; split; [assumption|]; split; [assumption|];
     apply Consumes_intro; exact Hs|].
  next_str.
  apply Steps_Seq; eexists; split;
    [apply Steps_Plus_Class; exists b; split; [assumption|]; split; [assumption|];
     apply Consumes_intro; simpl rest; symmetry; apply app_nil_r|].
  apply Steps_Eol. split; reflexivity.
Qed.

Lemma test_urlLineRe s : test urlLineRe s = true <-> IsUrlLine s.
Proof.
  unfold urlLineRe. rewrite test_Bol. split.
  - intros [st H]. apply (Steps_urlTail_inv H).
  - intros H. apply (Steps_urlTail_intro (start 0 s) H).
Qed.

Lemma test_linkDefinitionRe s :
  test linkDefinitionRe s = true <-> IsLinkDefinition s.
Proof.
  unfold linkDefinitionRe. rewrite test_Bol. split.
  - intros [st H]. do 6 split_seq H.
    apply Steps_urlTail_inv in H.
    apply Steps_Chr in Hs, Hs1, Hs3. apply Steps_Plus_Class in Hs0.
    apply Steps_Star_Class in Hs2, Hs4.
    destruct Hs0 as [label [Hn [Hf Hs0]]].
    destruct Hs2 as [ws1 [Hw1 Hs2]]. destruct Hs4 as [ws2 [Hw2 Hs4]].
    destruct Hs as [Hr _], Hs0 as [Hr0 _], Hs1 as [Hr1 _], Hs2 as [Hr2 _],
      Hs3 as [Hr3 _], Hs4 as [Hr4 _].
    exists label, ws1, ws2, (rest st5). repeat split; try assumption.
    simpl rest in Hr. rewrite Hr, Hr0, Hr1, Hr2, Hr3, Hr4. reflexivity.
  - intros [label [ws1 [ws2 [url [-> [Hn [Hf [Hw1 [Hw2 Hu]]]]]]]]].
    pose (st5 := {| pos := 1 + length label + 1 + length ws1 + 1 + length ws2;
                    rest := url; caps := [] |}).
    destruct (Steps_urlTail_intro st5 Hu) as [st' H].
    exists st'. next_chr. next_plus label. next_chr. next_star ws1. next_chr.
    apply Steps_Seq; exists st5; split; [|exact H].
    apply Steps_Star_Class. exists ws2. split; [assumption|].
    unfold Consumes, st5. simpl. repeat split; lia.
Qed.

(** ** The leading capitalized word *)

Lemma Steps_Group i r st st'' :
  Steps (Group i r) st st'' <-> exists st', Steps r st st' /\ st'' = capture i st st'.
Proof.
  split.
  - intros H. inversion H; subst. eauto.
  - intros [st' [H ->]]. now constructor.
Qed.

Lemma firstn_app_exact {A} (l1 l2 : list A) n :
  n = length l1 -> firstn n (l1 ++ l2) = l1.
Proof.
  intros ->. rewrite firstn_app, firstn_all, Nat.sub_diag. simpl. apply app_nil_r.
Qed.

Lemma exec_capitalizedWordRe_Some s m :
  exec capitalizedWordRe s = Some m ->
  exists w d, LeadingWord s w /\ m = [Some (w ++ [d]); Some w].
Proof.
  unfold exec, capitalizedWordRe. rewrite search_Bol.
  destruct (run _ _ _) as [st|] eqn:Hrun; [|discriminate].
  intros Hm. injection Hm as <-.
  apply run_sound in Hrun. destruct Hrun as [st' [H Hst]]. injection Hst as ->.
  split_seq H. apply Steps_Group in Hs. destruct Hs as [st1 [Hs ->]].
  split_seq Hs. apply Steps_Class in Hs0, H. apply Steps_Star_Class in Hs.
  destruct Hs0 as [c [Hc Hs0]]. destruct Hs as [lows [Hl Hs]]. destruct H as [d [Hd H]].
  pose proof (Consumes_app Hs0 Hs) as Hw. simpl app in Hw.
  destruct Hw as [Hr [Hp Hcaps]]. destruct H as [Hr' [Hp' Hcaps']].
  simpl in Hr, Hp, Hcaps, Hr', Hp', Hcaps'.
  exists (c :: lows), d. split.
  - exists c, lows, d, (rest st). rewrite Hr, Hr'.
    apply negb_true_iff in Hd. repeat split; assumption.
  - simpl. rewrite Hcaps', Hp', Hp, Hr, Hr', Nat.sub_0_r. simpl.
    rewrite (firstn_app_exact lows (d :: rest st) eq_refl).
    replace (lows ++ d :: rest st) with ((lows ++ [d]) ++ rest st)
      by (rewrite <- app_assoc; reflexivity).
    rewrite firstn_app_exact by (rewrite length_app; simpl; lia).
    reflexivity.
Qed.

Lemma exec_capitalizedWordRe_complete s w :
  LeadingWord s w -> exec capitalizedWordRe s <> None.
Proof.
  intros [c [lows [d [tl [-> [-> [Hc [Hl Hd]]]]]]]].
  unfold exec, capitalizedWordRe. rewrite search_Bol.
  destruct (run _ _ _) as [st|] eqn:Hrun; [discriminate|].
  exfalso. revert Hrun. apply run_complete with
    (st' := {| pos := S (S (length lows)); rest := tl;
               caps := [(1, firstn (S (length lows) - 0) ((c :: lows) ++ d :: tl))] |});
    [|discriminate].
  apply Steps_Seq.
  exists (capture 1 (start 0 ((c :: lows) ++ d :: tl))
            {| pos := S (length lows); rest := d :: tl; caps := [] |}).
  split.
  - apply StepsGroup. apply Steps_Seq.
    exists {| pos := 1; rest := lows ++ d :: tl; caps := [] |}. split.
    + apply Steps_Class. exists c. split; [assumption|].
      unfold Consumes. simpl. auto.
    + apply Steps_Star_Class. exists lows. split; [assumption|].
      unfold Consumes. simpl. auto.
  - apply Steps_Class. exists d. split; [now rewrite Hd|].
    unfold Consumes. simpl. repeat split. lia.
Qed.

Lemma forallb_prefix_unique (p : char -> bool) l1 l2 d1 d2 t1 t2 :
  forallb p l1 = true -> forallb p l2 = true -> p d1 = false -> p d2 = false ->
  l1 ++ d1 :: t1 = l2 ++ d2 :: t2 -> l1 = l2.
Proof.
  revert l2. induction l1 as [|a l1 IH]; intros [|b l2] H1 H2 Hd1 Hd2 He;
    simpl in *; try reflexivity.
  - injection He as -> _. apply andb_true_iff in H2. destruct H2; congruence.
  - injection He as -> _. apply andb_true_iff in H1. destruct H1; congruence.
  - injection He as -> He. apply andb_true_iff in H1, H2.
    f_equal. eapply IH; intuition eauto.
Qed.


Lemma LeadingWord_unique s w w' : LeadingWord s w -> LeadingWord s w' -> w = w'.
Proof.
  intros [c [lows [d [tl [Hs [-> [Hc [Hl Hd]]]]]]]]
         [c' [lows' [d' [tl' [Hs' [-> [Hc' [Hl' Hd']]]]]]]].
  rewrite Hs in Hs'. simpl in Hs'. injection Hs' as -> He. f_equal.
  unfold isLetter in Hd, Hd'. apply orb_false_iff in Hd, Hd'.
  apply (@forallb_prefix_unique isLower lows lows' d d' tl tl'); tauto.
Qed.

(** [capitalizedWordRe.exec]: the match array holds the leading word as
    group 1 when there is one, and the result is [null] otherwise. *)
Theorem exec_capitalizedWordRe_word s w :
  LeadingWord s w ->
  exists d, exec capitalizedWordRe s = Some [Some (w ++ [d]); Some w].
Proof.
  intros H. pose proof (exec_capitalizedWordRe_complete H) as Hne.
  destruct (exec capitalizedWordRe s) as [m|] eqn:He; [|congruence].
  apply exec_capitalizedWordRe_Some in He. destruct He as [w' [d [Hw' ->]]].
  rewrite (LeadingWord_unique H Hw'). eauto.
Qed.

Theorem exec_capitalizedWordRe_null s :
  (forall w, ~ LeadingWord s w) -> exec capitalizedWordRe s = None.
Proof.
  intros H. destruct (exec capitalizedWordRe s) as [m|] eqn:He; [|reflexivity].
  apply exec_capitalizedWordRe_Some in He. destruct He as [w [d [Hw _]]].
  destruct (H w Hw).
Qed.

(** ** Strings *)

Lemma endsWithChar_app c a b :
  b <> [] -> endsWithChar c (a ++ b) = endsWithChar c b.
Proof.
  intros Hb. induction a as [|x a IH]; [reflexivity|].
  simpl. rewrite IH. destruct (a ++ b) eqn:E; [|reflexivity].
  apply app_eq_nil in E. destruct E. contradiction.
Qed.

Lemma endsWithChar_forallb (p : char -> bool) c s :
  forallb p s = true -> p c = false -> endsWithChar c s = false.
Proof.
  intros Hs Hc. induction s as [|x s IH]; [reflexivity|].
  simpl in Hs. apply andb_true_iff in Hs. destruct Hs as [Hx Hs].
  simpl. destruct s as [|y s]; [|now apply IH].
  destruct (N.eqb_spec x c); [congruence | reflexivity].
Qed.

Lemma lit_String a s : lit (String a s) = N_of_ascii a :: lit s.
Proof. reflexivity. Qed.

Lemma lit_inj s1 s2 : lit s1 = lit s2 -> s1 = s2.
Proof.
  revert s2. induction s1 as [|a s1 IH]; intros [|b s2] H; try discriminate.
  - reflexivity.
  - rewrite !lit_String in H. injection H as Ha Hs.
    f_equal; [|now apply IH].
    rewrite <- (ascii_N_embedding a), <- (ascii_N_embedding b). now rewrite Ha.
Qed.

Lemma to_little_uint_nonnil n d : d <> Decimal.Nil -> Nat.to_little_uint n d <> Decimal.Nil.
Proof.
  revert d. induction n as [|n IH]; intros d Hd; simpl; [assumption|].
  apply IH. destruct d; discriminate.
Qed.

Lemma ofNat_nonempty n : ofNat n <> [].
Proof.
  unfold ofNat. destruct (Nat.to_uint n) eqn:E; try discriminate.
  exfalso. unfold Nat.to_uint in E. apply DecimalFacts.rev_nil_inv in E.
  revert E. apply to_little_uint_nonnil. discriminate.
Qed.

Lemma ofNat_digits n : forallb isDigit (ofNat n) = true.
Proof.
  unfold ofNat. induction (Nat.to_uint n) as [|d IH|d IH|d IH|d IH|d IH|d IH|d IH|d IH|d IH|d IH];
    [reflexivity | exact IH ..].
Qed.

Lemma ofNat_inj n m : ofNat n = ofNat m -> n = m.
Proof.
  unfold ofNat. intros H. apply lit_inj in H.
  apply DecimalNat.Unsigned.to_uint_inj.
  assert (E : Some (Nat.to_uint n) = Some (Nat.to_uint m))
    by (rewrite <- !NilEmpty.usu; now rewrite H).
  now injection E.
Qed.

Lemma ofNat_no_newline n : endsWithChar 10 (ofNat n) = false.
Proof. apply endsWithChar_forallb with (p := isDigit); [apply ofNat_digits | reflexivity]. Qed.

(** ** The reported sentences never end in a newline *)

Ltac ends_in_literal :=
  rewrite ?app_assoc; rewrite endsWithChar_app by discriminate; reflexivity.

Lemma SubjectError_noNewline e : SubjectError e -> endsWithChar 10 e = false.
Proof.
  destruct 1; unfold subjectLengthError, imperativeMoodError,
    imperativeMoodErrorAdditional, imperativeMoodPrefix; try reflexivity;
    ends_in_literal.
Qed.

Lemma BodyError_noNewline e : BodyError e -> endsWithChar 10 e = false.
Proof.
  destruct 1; unfold bodyLineLengthError, duplicateWordError; try reflexivity;
    ends_in_literal.
Qed.

Lemma StructuralError_noNewline e : StructuralError e -> endsWithChar 10 e = false.
Proof.
  destruct 1; unfold tooFewLinesError, tooFewLinesMultiError, separatorError;
    rewrite ?app_assoc; rewrite endsWithChar_app by apply ofNat_nonempty;
    apply ofNat_no_newline.
Qed.

Lemma checkPostCondition_ok errors :
  Forall (fun e => endsWithChar 10 e = false) errors ->
  checkPostCondition errors = Ok tt.
Proof.
  induction 1 as [|e errors He _ IH]; simpl; [reflexivity|]. now rewrite He.
Qed.

Lemma checkPostCondition_inv errors :
  checkPostCondition errors = Ok tt ->
  Forall (fun e => endsWithChar 10 e = false) errors.
Proof.
  induction errors as [|e errors IH]; simpl; intros H; [constructor|].
  destruct (endsWithChar 10 e) eqn:He; [discriminate|].
  constructor; auto.
Qed.

Lemma checkPostCondition_throws errors :
  Exists (fun e => endsWithChar 10 e = true) errors ->
  exists msg, checkPostCondition errors = Throw msg.
Proof.
  induction 1 as [e errors He|e errors _ IH]; simpl.
  - rewrite He. eauto.
  - destruct (endsWithChar 10 e); eauto.
Qed.

(** ** Splitting *)

Lemma split_length c s : 1 <= length (split c s).
Proof.
  induction s as [|x s IH]; simpl; [lia|].
  destruct (N.eqb x c); simpl; [lia|].
  destruct (split c s); simpl in *; lia.
Qed.

Lemma split_no_sep c s :
  forallb (fun x => negb (x =? c)%N) s = true -> split c s = [s].
Proof.
  induction s as [|x s IH]; simpl; intros H; [reflexivity|].
  apply andb_true_iff in H. destruct H as [Hx H].
  apply negb_true_iff in Hx. rewrite Hx, (IH H). reflexivity.
Qed.

Lemma splitLines_length msg : 1 <= length (splitLines msg).
Proof. unfold splitLines. rewrite length_map. apply split_length. Qed.

Lemma forallb_imp {A} (p q : A -> bool) l :
  (forall x, p x = true -> q x = true) -> forallb p l = true -> forallb q l = true.
Proof.
  intros Hpq. induction l as [|x l IH]; simpl; [reflexivity|].
  intros H. apply andb_true_iff in H. destruct H as [Hx H].
  now rewrite (Hpq x Hx), (IH H).
Qed.

Lemma isRefChar_no_newline x : isRefChar x = true -> negb (x =? 10)%N = true.
Proof.
  unfold isRefChar. destruct (N.eqb_spec x 10) as [->|]; [discriminate | reflexivity].
Qed.

Lemma IsMergeMessage_one_line s :
  IsMergeMessage s -> forallb (fun x => negb (x =? 10)%N) s = true.
Proof.
  intros [ref1 [ref2 [-> [_ [_ [H1 H2]]]]]].
  rewrite !forallb_app.
  assert (E1 : forallb (fun x : N => negb (x =? 10)%N) ref1 = true)
    by (revert H1; apply forallb_imp, isRefChar_no_newline).
  assert (E2 : forallb (fun x : N => negb (x =? 10)%N) ref2 = true)
    by (revert H2; apply forallb_imp, isRefChar_no_newline).
  repeat (apply andb_true_iff; split); try reflexivity; assumption.
Qed.

(** A message of several lines is never taken for a merge message: the
    pattern ends with [$] and its classes exclude the line feed. *)
Lemma merge_single_line msg :
  test mergeMessageRe msg = true -> length (splitLines msg) = 1.
Proof.
  intros H. apply test_mergeMessageRe, IsMergeMessage_one_line in H.
  unfold splitLines. now rewrite (split_no_sep _ _ H).
Qed.

Lemma not_merge_multi_line msg :
  2 <= length (splitLines msg) -> test mergeMessageRe msg = false.
Proof.
  intros H. destruct (test mergeMessageRe msg) eqn:E; [|reflexivity].
  apply merge_single_line in E. lia.
Qed.

(** ** The checks, rule by rule *)

(** Decide the tests on line counts of [check] and [splitSubjectBody]. *)
Ltac run_check :=
  cbv beta iota zeta delta
    [Nat.eqb Nat.ltb Nat.leb orb andb negb errors subjectBody subject bodyLines
     length].

Section ChecksByRule.

Variable SET : JSSet.t.
Variable lower : str -> str.

Lemma checkAdditionalVerbs_valid verbs :
  forallb (isValidVerb lower) verbs = true <->
  checkAdditionalVerbs lower verbs = Ok tt.
Proof.
  induction verbs as [|v verbs IH]; simpl; [tauto|].
  unfold isValidVerb at 1.
  destruct (length v =? 0); simpl; [split; discriminate|].
  destruct (str_eqb v (toLowerCase lower v)); simpl; [exact IH | split; discriminate].
Qed.

Lemma checkAdditionalVerbs_invalid verbs :
  forallb (isValidVerb lower) verbs = false ->
  exists msg, checkAdditionalVerbs lower verbs = Throw msg.
Proof.
  intros H. destruct (checkAdditionalVerbs lower verbs) as [[]|msg] eqn:E; [|eauto].
  apply checkAdditionalVerbs_valid in E. congruence.
Qed.

Lemma exec_capitalizedWordRe_shape s m :
  exec capitalizedWordRe s = Some m ->
  exists whole w, m = [Some whole; Some w] /\ LeadingWord s w.
Proof.
  intros H. apply exec_capitalizedWordRe_Some in H.
  destruct H as [w [d [Hw ->]]]. eauto.
Qed.

(** With a valid set of additional verbs, [checkSubject] returns the
    sentences of its three rules, in the order length, verb, dot. *)
Lemma checkSubject_rules subject verbs :
  checkAdditionalVerbs lower verbs = Ok tt ->
  checkSubject SET lower subject verbs =
  Ok (lengthRule subject (replace suffixHashCodeRe [] subject)
      ++ verbRule SET lower verbs (replace suffixHashCodeRe [] subject)
      ++ dotRule (replace suffixHashCodeRe [] subject)).
Proof.
  intros Hv. unfold checkSubject, verbRule, lengthRule, dotRule. rewrite Hv. simpl bind.
  set (s := replace suffixHashCodeRe [] subject).
  destruct (exec capitalizedWordRe s) as [m|] eqn:He.
  - apply exec_capitalizedWordRe_shape in He. destruct He as [whole [w [-> _]]].
    simpl.
    destruct (negb (JSSet.has SET (toLowerCase lower w))
              && negb (JSSet.has verbs (toLowerCase lower w)));
      destruct (JSSet.size verbs =? 0); destruct (endsWithChar 46 s);
      simpl; rewrite <- ?app_assoc, ?app_nil_r; reflexivity.
  - simpl. destruct (endsWithChar 46 s); rewrite <- ?app_assoc; reflexivity.
Qed.

Lemma checkSubject_throws subject verbs :
  forallb (isValidVerb lower) verbs = false ->
  exists msg, checkSubject SET lower subject verbs = Throw msg.
Proof.
  intros H. apply checkAdditionalVerbs_invalid in H. destruct H as [msg H].
  exists msg. unfold checkSubject. now rewrite H.
Qed.

Lemma lengthRule_errors subject s : Forall SubjectError (lengthRule subject s).
Proof. unfold lengthRule. destruct (50 <? length s); repeat constructor. Qed.

Lemma verbRule_errors verbs s : Forall SubjectError (verbRule SET lower verbs s).
Proof.
  unfold verbRule. destruct (exec capitalizedWordRe s) as [m|]; [|repeat constructor].
  destruct (nth 1 m None); [|constructor].
  destruct (_ && _); [|constructor]. destruct (_ =? _); repeat constructor.
Qed.

Lemma dotRule_errors s : Forall SubjectError (dotRule s).
Proof. unfold dotRule. destruct (endsWithChar 46 s); repeat constructor. Qed.

Lemma checkSubject_errors subject verbs errs :
  checkSubject SET lower subject verbs = Ok errs -> Forall SubjectError errs.
Proof.
  destruct (forallb (isValidVerb lower) verbs) eqn:Hv.
  - apply checkAdditionalVerbs_valid in Hv. rewrite (checkSubject_rules subject verbs Hv).
    intros H. injection H as <-. rewrite !Forall_app.
    auto using lengthRule_errors, verbRule_errors, dotRule_errors.
  - destruct (checkSubject_throws subject verbs Hv) as [msg ->]. discriminate.
Qed.

(** [checkBody] never throws; past its two early returns it reports the
    long lines and then the duplicated first word. *)
Lemma checkBody_rules subject body :
  checkBody lower subject body =
  Ok (if length body =? 0 then [emptyBodyError]
      else if (length body =? 1) && str_eqb (trim (nth 0 body [])) []
      then [blankBodyError]
      else checkBodyLines 0 body ++ duplicateRule lower subject (nth 0 body [])).
Proof.
  unfold checkBody, duplicateRule.
  destruct (length body =? 0); [reflexivity|].
  destruct ((length body =? 1) && str_eqb (trim (nth 0 body [])) []); [reflexivity|].
  destruct (exec capitalizedWordRe (nth 0 body [])) as [mb|] eqn:Hb;
    [|now rewrite app_nil_r].
  apply exec_capitalizedWordRe_shape in Hb. destruct Hb as [wholeb [wb [-> _]]].
  destruct (exec capitalizedWordRe subject) as [ms|] eqn:Hs;
    [|now rewrite app_nil_r].
  apply exec_capitalizedWordRe_shape in Hs. destruct Hs as [wholes [ws [-> _]]].
  simpl. destruct (str_eqb _ _); [reflexivity | now rewrite app_nil_r].
Qed.

Lemma checkBodyLines_errors i lines : Forall BodyError (checkBodyLines i lines).
Proof.
  revert i. induction lines as [|l lines IH]; intros i; simpl; [constructor|].
  apply Forall_app. split; [|apply IH].
  destruct (_ || _); [constructor|]. destruct (72 <? length l); repeat constructor.
Qed.

Lemma duplicateRule_errors subject line0 :
  Forall BodyError (duplicateRule lower subject line0).
Proof.
  unfold duplicateRule.
  destruct (exec capitalizedWordRe line0) as [mb|]; [|constructor].
  destruct (exec capitalizedWordRe subject) as [ms|]; [|constructor].
  destruct (nth 1 ms None); [|constructor]. destruct (nth 1 mb None); [|constructor].
  destruct (str_eqb _ _); repeat constructor.
Qed.

Lemma checkBody_errors subject body errs :
  checkBody lower subject body = Ok errs -> Forall BodyError errs.
Proof.
  rewrite checkBody_rules. intros H. injection H as <-.
  destruct (length body =? 0); [repeat constructor|].
  destruct (_ && _); [repeat constructor|].
  apply Forall_app. auto using checkBodyLines_errors, duplicateRule_errors.
Qed.

(** ** The post-condition of [check] never fires *)

Lemma post_condition_redundant (r : result (list str)) :
  (forall errs, r = Ok errs -> Forall (fun e => endsWithChar 10 e = false) errs) ->
  (errors <- r ;; _ <- checkPostCondition errors ;; Ok errors) = r.
Proof.
  intros H. destruct r as [errs|msg]; [|reflexivity]. simpl.
  now rewrite (checkPostCondition_ok (H errs eq_refl)).
Qed.

Lemma post_condition_structural e :
  StructuralError e ->
  (errors <- Ok [e] ;; _ <- checkPostCondition errors ;; Ok errors) = Ok [e].
Proof.
  intros H. apply post_condition_redundant. intros errs E. injection E as <-.
  constructor; [now apply StructuralError_noNewline | constructor].
Qed.

Lemma Forall_noNewline_subject errs :
  Forall SubjectError errs -> Forall (fun e => endsWithChar 10 e = false) errs.
Proof. apply Forall_impl, SubjectError_noNewline. Qed.

Lemma Forall_noNewline_body errs :
  Forall BodyError errs -> Forall (fun e => endsWithChar 10 e = false) errs.
Proof. apply Forall_impl, BodyError_noNewline. Qed.

(** ** The branches of [check] *)

Lemma check_merge msg verbs allow :
  test mergeMessageRe msg = true -> check SET lower msg verbs allow = Ok [].
Proof. intros H. unfold check. now rewrite H. Qed.

Lemma check_one_liner msg verbs :
  test mergeMessageRe msg = false -> length (splitLines msg) = 1 ->
  check SET lower msg verbs true =
  checkSubject SET lower (nth 0 (splitLines msg) []) verbs.
Proof.
  intros Hm Hl. unfold check. rewrite Hm, Hl. run_check.
  apply post_condition_redundant.
  intros errs H. apply Forall_noNewline_subject. now apply checkSubject_errors in H.
Qed.

Lemma check_too_few msg verbs :
  test mergeMessageRe msg = false -> length (splitLines msg) = 1 ->
  check SET lower msg verbs false = Ok [tooFewLinesError 1].
Proof.
  intros Hm Hl. unfold check, splitSubjectBody. rewrite Hm, Hl. run_check.
  apply post_condition_structural. constructor.
Qed.

Lemma check_two_lines msg verbs allow :
  length (splitLines msg) = 2 ->
  check SET lower msg verbs allow = Ok [tooFewLinesMultiError 2].
Proof.
  intros Hl. unfold check, splitSubjectBody.
  rewrite not_merge_multi_line by lia. rewrite Hl. run_check.
  apply post_condition_structural. constructor.
Qed.

Lemma length_ge_3 n : 3 <= n -> (n =? 0) = false /\ (n =? 1) = false /\ (n =? 2) = false.
Proof. intros H. repeat split; apply Nat.eqb_neq; lia. Qed.

Lemma check_bad_separator msg verbs allow :
  3 <= length (splitLines msg) -> nth 1 (splitLines msg) [] <> [] ->
  check SET lower msg verbs allow =
  Ok [separatorError (length (nth 1 (splitLines msg) []))].
Proof.
  intros Hl Hs. unfold check, splitSubjectBody.
  rewrite not_merge_multi_line by lia.
  destruct (length_ge_3 Hl) as [-> [-> ->]].
  assert (E : (length (nth 1 (splitLines msg) []) =? 0) = false).
  { apply Nat.eqb_neq. destruct (nth 1 (splitLines msg) []); [congruence | discriminate]. }
  rewrite E. run_check.
  apply post_condition_structural. constructor.
Qed.

Lemma check_subject_and_body msg verbs allow :
  3 <= length (splitLines msg) -> nth 1 (splitLines msg) [] = [] ->
  check SET lower msg verbs allow =
  (errors1 <- checkSubject SET lower (nth 0 (splitLines msg) []) verbs ;;
   errors2 <- checkBody lower (nth 0 (splitLines msg) []) (skipn 2 (splitLines msg)) ;;
   Ok (errors1 ++ errors2)).
Proof.
  intros Hl Hs. unfold check, splitSubjectBody.
  rewrite not_merge_multi_line by lia.
  destruct (length_ge_3 Hl) as [-> [-> ->]]. rewrite Hs. run_check.
  apply post_condition_redundant. intros errs H.
  destruct (checkSubject _ _ _ _) as [e1|] eqn:H1; [|discriminate].
  destruct (checkBody _ _ _) as [e2|] eqn:H2; [|discriminate].
  simpl in H. injection H as <-. apply Forall_app. split.
  - apply Forall_noNewline_subject. now apply checkSubject_errors in H1.
  - apply Forall_noNewline_body. now apply checkBody_errors in H2.
Qed.

End ChecksByRule.

(** ** Telling the sentences apart by their first words *)

Lemma StructuralError_prefix e : StructuralError e -> firstn 5 e = lit "Expec".
Proof. destruct 1; reflexivity. Qed.

Lemma SubjectError_prefix e : SubjectError e -> firstn 5 e = lit "The s".
Proof. destruct 1; reflexivity. Qed.

Lemma BodyError_prefix e :
  BodyError e ->
  firstn 5 e = lit "At le" \/ firstn 5 e = lit "Unexp" \/
  firstn 5 e = lit "The l" \/ firstn 5 e = lit "The f".
Proof. destruct 1; auto. Qed.

Lemma Violation_not_messageEmpty e : Violation e -> e <> messageEmptyError.
Proof.
  intros [H | [H | H]] ->.
  - apply StructuralError_prefix in H. discriminate.
  - apply SubjectError_prefix in H. discriminate.
  - apply BodyError_prefix in H. destruct H as [H | [H | [H | H]]]; discriminate.
Qed.

Lemma SubjectError_not_structural e : SubjectError e -> ~ StructuralError e.
Proof.
  intros H1 H2. apply SubjectError_prefix in H1. apply StructuralError_prefix in H2.
  rewrite H1 in H2. discriminate.
Qed.

Lemma SubjectError_not_body e : SubjectError e -> ~ BodyError e.
Proof.
  intros H1 H2. apply SubjectError_prefix in H1. apply BodyError_prefix in H2.
  rewrite H1 in H2. destruct H2 as [H | [H | [H | H]]]; discriminate.
Qed.

Lemma StructuralError_not_body e : StructuralError e -> ~ BodyError e.
Proof.
  intros H1 H2. apply StructuralError_prefix in H1. apply BodyError_prefix in H2.
  rewrite H1 in H2. destruct H2 as [H | [H | [H | H]]]; discriminate.
Qed.

Section CheckResults.

Variable SET : JSSet.t.
Variable lower : str -> str.

(** Every sentence that [check] returns is of one of the three kinds. *)
Lemma check_errors msg verbs allow errs :
  check SET lower msg verbs allow = Ok errs -> Forall Violation errs.
Proof.
  destruct (test mergeMessageRe msg) eqn:Hm.
  - rewrite check_merge by assumption. intros H. injection H as <-. constructor.
  - pose proof (splitLines_length msg) as Hpos.
    destruct (Nat.eq_dec (length (splitLines msg)) 1) as [H1|H1];
      [|destruct (Nat.eq_dec (length (splitLines msg)) 2) as [H2|H2]].
    + destruct allow.
      * rewrite check_one_liner by assumption. intros H.
        apply checkSubject_errors in H. revert H. apply Forall_impl.
        unfold Violation. auto.
      * rewrite check_too_few by assumption. intros H. injection H as <-.
        repeat constructor.
    + rewrite check_two_lines by assumption. intros H. injection H as <-.
      constructor; [|constructor]. left. constructor.
    + destruct (nth 1 (splitLines msg) []) as [|c l] eqn:Hs.
      * rewrite check_subject_and_body by (assumption || lia).
        destruct (checkSubject _ _ _ _) as [e1|] eqn:E1; [|discriminate].
        destruct (checkBody _ _ _) as [e2|] eqn:E2; [|discriminate].
        simpl. intros H. injection H as <-.
        apply checkSubject_errors in E1. apply checkBody_errors in E2.
        apply Forall_app. split; [revert E1 | revert E2]; apply Forall_impl;
          unfold Violation; auto.
      * rewrite check_bad_separator by (lia || (rewrite Hs; discriminate)).
        intros H. injection H as <-. constructor; [|constructor]. left. constructor.
Qed.

End CheckResults.

(** ** Patterns that cannot match *)

Lemma search_None r s :
  (forall d st, d <= length s -> ~ Steps r (start d (skipn d s)) st) ->
  search r s = None.
Proof.
  intros H. unfold search. destruct (searchFrom r 0 s) as [[j st]|] eqn:E; [|reflexivity].
  apply searchFrom_Some in E. destruct E as [d [-> [Hd [Hs _]]]].
  destruct (H d st Hd Hs).
Qed.

Lemma replace_no_match r repl s : search r s = None -> replace r repl s = s.
Proof. unfold replace. now intros ->. Qed.


Lemma forallb_In_false (p : N -> bool) x l :
  forallb p l = true -> p x = false -> ~ In x l.
Proof.
  intros H Hx Hin. rewrite forallb_forall in H. apply H in Hin. congruence.
Qed.



(** ** Strings of letters *)

Section Letters.

Variable s : str.
Hypothesis letters : forallb isLetter s = true.









End Letters.


(** ** Valid and invalid sets of additional verbs *)

Section Defects.

Variable SET : JSSet.t.
Variable lower : str -> str.

Lemma invalid_entry verbs :
  Exists (fun v => v = [] \/ v <> toLowerCase lower v) verbs ->
  forallb (isValidVerb lower) verbs = false.
Proof.
  induction 1 as [v verbs H|v verbs _ IH]; simpl.
  - unfold isValidVerb. destruct H as [->|H]; [reflexivity|].
    apply str_eqb_neq in H. rewrite H. now rewrite andb_false_r.
  - rewrite IH. apply andb_false_r.
Qed.

Lemma valid_entries verbs :
  ValidVerbs lower verbs -> forallb (isValidVerb lower) verbs = true.
Proof.
  unfold ValidVerbs. induction 1 as [|v verbs [Hn He] _ IH]; simpl; [reflexivity|].
  rewrite IH, andb_true_r. unfold isValidVerb.
  rewrite <- He, str_eqb_refl. destruct v; [congruence | reflexivity].
Qed.

Lemma check_returns msg verbs allow :
  forallb (isValidVerb lower) verbs = true ->
  exists errs, check SET lower msg verbs allow = Ok errs.
Proof.
  intros Hv. apply checkAdditionalVerbs_valid in Hv.
  destruct (test mergeMessageRe msg) eqn:Hm.
  - rewrite check_merge by assumption. eauto.
  - pose proof (splitLines_length msg) as Hpos.
    destruct (Nat.eq_dec (length (splitLines msg)) 1) as [H1|H1];
      [|destruct (Nat.eq_dec (length (splitLines msg)) 2) as [H2|H2]].
    + destruct allow.
      * rewrite check_one_liner by assumption.
        rewrite (checkSubject_rules SET lower _ verbs Hv). eauto.
      * rewrite check_too_few by assumption. eauto.
    + rewrite check_two_lines by assumption. eauto.
    + destruct (nth 1 (splitLines msg) []) as [|x l] eqn:Hs.
      * rewrite check_subject_and_body by (assumption || lia).
        rewrite (checkSubject_rules SET lower _ verbs Hv), checkBody_rules.
        simpl. eauto.
      * rewrite check_bad_separator by (lia || (rewrite Hs; discriminate)). eauto.
Qed.

End Defects.

(** ** The verb rule of the subject *)

Section VerbRule.

Variable SET : JSSet.t.
Variable lower : str -> str.


Lemma verbRule_word verbs s w :
  LeadingWord s w ->
  verbRule SET lower verbs s =
  if JSSet.has SET (toLowerCase lower w) || JSSet.has verbs (toLowerCase lower w)
  then []
  else [if JSSet.size verbs =? 0 then imperativeMoodError w
        else imperativeMoodErrorAdditional w].
Proof.
  intros H. unfold verbRule.
  destruct (exec_capitalizedWordRe_word H) as [d ->]. simpl.
  destruct (JSSet.has SET _), (JSSet.has verbs _); reflexivity.
Qed.


End VerbRule.

(** ** The body *)

Ltac decide_char_tests :=
  repeat match goal with
  | |- context [(?a <=? ?b)%N] =>
      first [ replace (a <=? b)%N with false by (symmetry; apply N.leb_gt; lia)
            | replace (a <=? b)%N with true by (symmetry; apply N.leb_le; lia) ]
  | |- context [(?a =? ?b)%N] =>
      replace (a =? b)%N with false by (symmetry; apply N.eqb_neq; lia)
  end.

Lemma isUpper_not_space c : isUpper c = true -> isWhiteSpace c = false.
Proof.
  unfold isUpper, isWhiteSpace. intros H. apply andb_true_iff in H.
  destruct H as [H1 H2]. apply N.leb_le in H1, H2.
  decide_char_tests. reflexivity.
Qed.

Lemma trimStart_last l c :
  isWhiteSpace c = false -> trimStart (l ++ [c]) <> [].
Proof.
  intros Hc. induction l as [|x l IH]; simpl.
  - rewrite Hc. discriminate.
  - destruct (isWhiteSpace x); [assumption | discriminate].
Qed.

Lemma trim_not_blank c s :
  isWhiteSpace c = false -> trim (c :: s) <> [].
Proof.
  intros Hc. unfold trim. simpl trimStart at 2. rewrite Hc. simpl rev at 2.
  intros H. apply (f_equal (@rev N)) in H. rewrite rev_involutive in H. simpl in H.
  revert H. now apply trimStart_last.
Qed.

Lemma LeadingWord_not_blank s w : LeadingWord s w -> trim s <> [].
Proof.
  intros [c [lows [d [tl [-> [-> [Hc _]]]]]]]. simpl.
  apply trim_not_blank. now apply isUpper_not_space.
Qed.

Lemma LeadingWord_nil w : ~ LeadingWord [] w.
Proof. intros [c [lows [d [tl [E [-> _]]]]]]. discriminate. Qed.

Section DuplicateRule.

Variable lower : str -> str.

Lemma duplicateRule_words subject line0 ws wb :
  LeadingWord subject ws -> LeadingWord line0 wb ->
  duplicateRule lower subject line0 =
  if str_eqb (toLowerCase lower ws) (toLowerCase lower wb)
  then [duplicateWordError ws] else [].
Proof.
  intros Hs Hb. unfold duplicateRule.
  destruct (exec_capitalizedWordRe_word Hs) as [ds ->].
  destruct (exec_capitalizedWordRe_word Hb) as [db ->]. reflexivity.
Qed.

Lemma duplicateRule_skipped subject line0 :
  (forall w, ~ LeadingWord subject w) \/ (forall w, ~ LeadingWord line0 w) ->
  duplicateRule lower subject line0 = [].
Proof.
  intros [H|H]; unfold duplicateRule.
  - rewrite (exec_capitalizedWordRe_null H). now destruct (exec capitalizedWordRe line0).
  - now rewrite (exec_capitalizedWordRe_null H).
Qed.

(** Past the early returns, which a body whose first line has a leading
    word never takes. *)
Lemma checkBody_with_word subject body wb :
  LeadingWord (nth 0 body []) wb ->
  checkBody lower subject body =
  Ok (checkBodyLines 0 body ++ duplicateRule lower subject (nth 0 body [])).
Proof.
  intros H. rewrite checkBody_rules.
  destruct body as [|l body]; [destruct (LeadingWord_nil H)|].
  cbn [length Nat.eqb nth] in *.
  apply LeadingWord_not_blank, str_eqb_neq in H. rewrite H, andb_false_r.
  reflexivity.
Qed.

End DuplicateRule.

Lemma checkBodyLines_prefix i lines :
  Forall (fun e => firstn 5 e = lit "The l") (checkBodyLines i lines).
Proof.
  revert i. induction lines as [|l lines IH]; intros i; simpl; [constructor|].
  apply Forall_app. split; [|apply IH].
  destruct (_ || _); [constructor|]. destruct (72 <? length l); repeat constructor.
Qed.

Lemma checkBodyLines_no_duplicate i lines w :
  ~ In (duplicateWordError w) (checkBodyLines i lines).
Proof.
  intros H. pose proof (checkBodyLines_prefix i lines) as P.
  rewrite Forall_forall in P. apply P in H. discriminate.
Qed.

(** ** The length rule of the body *)

Lemma isExemptLine_spec line :
  isExemptLine line = true <-> IsUrlLine line \/ IsLinkDefinition line.
Proof.
  unfold isExemptLine. rewrite orb_true_iff, test_urlLineRe, test_linkDefinitionRe.
  tauto.
Qed.

Lemma In_checkBodyLines e k lines :
  In e (checkBodyLines k lines) <->
  exists j l, nth_error lines j = Some l /\ isExemptLine l = false /\
              72 < length l /\ e = bodyLineLengthError (k + j) l.
Proof.
  revert k. induction lines as [|l0 lines IH]; intros k; simpl.
  - split; [tauto|]. intros [[|j] [l [H _]]]; discriminate.
  - rewrite in_app_iff, IH. fold (isExemptLine l0). split.
    + intros [H | [j [l [H1 [H2 [H3 ->]]]]]].
      * destruct (isExemptLine l0) eqn:Ex; [destruct H|].
        destruct (72 <? length l0) eqn:E; [|destruct H].
        destruct H as [<-|[]]. exists 0, l0. rewrite Nat.add_0_r.
        apply Nat.ltb_lt in E. auto.
      * exists (S j), l. replace (k + S j) with (S k + j) by lia. auto.
    + intros [[|j] [l [H1 [H2 [H3 ->]]]]]; simpl in H1.
      * injection H1 as ->. left. rewrite H2.
        apply Nat.ltb_lt in H3. rewrite H3, Nat.add_0_r. now left.
      * right. exists j, l. replace (S k + j) with (k + S j) by lia. auto.
Qed.

(** The sentence names its line: two sentences about different body
    indices differ. *)
Lemma bodyLineLengthError_index i j l l' :
  bodyLineLengthError i l = bodyLineLengthError j l' -> i = j.
Proof.
  unfold bodyLineLengthError. intros H. apply app_inv_head in H.
  assert (E : ofNat (i + 3) = ofNat (j + 3)).
  { apply (@forallb_prefix_unique isDigit (ofNat (i + 3)) (ofNat (j + 3)) 32%N 32%N)
      with (t1 := lit "of the message (line " ++ ofNat (i + 1) ++ lit " of the body) " ++
                  lit "exceeds the limit of 72 characters. " ++
                  lit "The line contains " ++ ofNat (length l) ++ lit " characters: " ++
                  JSON_stringify l ++ lit ".")
           (t2 := lit "of the message (line " ++ ofNat (j + 1) ++ lit " of the body) " ++
                  lit "exceeds the limit of 72 characters. " ++
                  lit "The line contains " ++ ofNat (length l') ++ lit " characters: " ++
                  JSON_stringify l' ++ lit ".");
      try apply ofNat_digits; try reflexivity. exact H. }
  apply ofNat_inj in E. lia.
Qed.

Section BodyLines.

Variable lower : str -> str.

Lemma checkBody_not_blank subject body :
  body <> [] ->
  ~ (length body = 1 /\ trim (nth 0 body []) = []) ->
  checkBody lower subject body =
  Ok (checkBodyLines 0 body ++ duplicateRule lower subject (nth 0 body [])).
Proof.
  intros Hne Hb. rewrite checkBody_rules.
  destruct body as [|l body]; [congruence|]. cbn [length Nat.eqb nth] in *.
  destruct ((length body =? 0) && str_eqb (trim l) []) eqn:E; [|reflexivity].
  exfalso. apply Hb. apply andb_true_iff in E. destruct E as [E1 E2].
  apply Nat.eqb_eq in E1. apply str_eqb_eq in E2. rewrite E1. auto.
Qed.

Lemma duplicateRule_prefix subject line0 :
  Forall (fun e => firstn 5 e = lit "The f") (duplicateRule lower subject line0).
Proof.
  unfold duplicateRule.
  destruct (exec capitalizedWordRe line0) as [mb|]; [|constructor].
  destruct (exec capitalizedWordRe subject) as [ms|]; [|constructor].
  destruct (nth 1 ms None); [|constructor]. destruct (nth 1 mb None); [|constructor].
  destruct (str_eqb _ _); repeat constructor.
Qed.

(** A length sentence about body index [i] in the result of [checkBody]
    comes from the line at index [i], which is then not exempt and longer
    than 72 units. *)
Lemma In_checkBody_length_error subject body i l :
  In (bodyLineLengthError i l)
     (checkBodyLines 0 body ++ duplicateRule lower subject (nth 0 body [])) ->
  exists line, nth_error body i = Some line /\ isExemptLine line = false /\
               72 < length line.
Proof.
  intros H. apply in_app_or in H. destruct H as [H|H].
  - apply In_checkBodyLines in H. destruct H as [j [line [H1 [H2 [H3 E]]]]].
    apply bodyLineLengthError_index in E. simpl in E. subst j. eauto.
  - pose proof (duplicateRule_prefix subject (nth 0 body [])) as P.
    rewrite Forall_forall in P. apply P in H. discriminate.
Qed.

End BodyLines.

(** ** The hash-code suffix *)

Lemma Steps_hashCodeTail_inv st st' :
  Steps hashCodeTail st st' -> IsHashCode (rest st) /\ rest st' = [].
Proof.
  unfold hashCodeTail. intros H. do 6 split_seq H.
  apply Steps_Chr in Hs, Hs1, Hs4. apply Steps_Star_Class in Hs0, Hs3.
  apply Steps_Plus_Class in Hs2. apply Steps_Eol in H. destruct H as [-> Hend].
  destruct Hs0 as [ws1 [Hw1 Hs0]]. destruct Hs2 as [code [Hn [Hc Hs2]]].
  destruct Hs3 as [ws2 [Hw2 Hs3]].
  destruct Hs as [Hr _], Hs0 as [Hr0 _], Hs1 as [Hr1 _], Hs2 as [Hr2 _],
    Hs3 as [Hr3 _], Hs4 as [Hr4 _].
  split; [|assumption]. exists ws1, code, ws2. repeat split; try assumption.
  rewrite Hr, Hr0, Hr1, Hr2, Hr3, Hr4, Hend. reflexivity.
Qed.

Lemma Steps_hashCodeTail_intro st :
  IsHashCode (rest st) -> exists st', Steps hashCodeTail st st' /\ rest st' = [].
Proof.
  unfold hashCodeTail. intros [ws1 [code [ws2 [E [Hw1 [Hn [Hc Hw2]]]]]]].
  eexists. split.
  - apply Steps_Seq; eexists; split;
      [apply Steps_Chr; apply Consumes_intro; exact E|].
    next_star ws1. next_chr. next_plus code. next_star ws2. next_chr.
    apply Steps_Eol. split; reflexivity.
  - reflexivity.
Qed.

Lemma Steps_suffixHashCodeRe st st' :
  Steps suffixHashCodeRe st st' ->
  rest st' = [] /\
  (IsHashCode (rest st) \/
   exists w t, rest st = w :: t /\ isWhiteSpace w = true /\ IsHashCode t).
Proof.
  intros H. change suffixHashCodeRe with (Opt (Class isWhiteSpace) +> hashCodeTail) in H.
  split_seq H. apply Steps_hashCodeTail_inv in H. destruct H as [H Hend].
  split; [assumption|].
  apply Steps_Opt_Class in Hs. destruct Hs as [[|w [|x sp]] [Hl [Hw [Hr _]]]];
    simpl in Hl; [| |lia].
  - left. now rewrite Hr.
  - right. exists w, (rest st0). simpl in Hw. rewrite andb_true_r in Hw. auto.
Qed.

Lemma hashCode_shape t :
  IsHashCode t -> exists body, t = 40%N :: body /\ ~ In 40%N body.
Proof.
  intros [ws1 [code [ws2 [-> [Hw1 [_ [Hc Hw2]]]]]]].
  eexists. split; [reflexivity|].
  rewrite !in_app_iff. intros [H | [H | [H | [H | H]]]].
  - revert H. now apply (@forallb_In_false isWhiteSpace).
  - destruct H as [H|[]]. discriminate.
  - revert H. now apply (@forallb_In_false isWordChar).
  - revert H. now apply (@forallb_In_false isWhiteSpace).
  - destruct H as [H|[]]. discriminate.
Qed.

(** Two hash codes that end the same string start at the same index. *)
Lemma hashCode_unique p1 t1 p2 t2 :
  IsHashCode t1 -> IsHashCode t2 -> p1 ++ t1 = p2 ++ t2 -> p1 = p2 /\ t1 = t2.
Proof.
  intros H1 H2. apply hashCode_shape in H1, H2.
  destruct H1 as [b1 [-> N1]], H2 as [b2 [-> N2]].
  revert p2. induction p1 as [|x p1 IH]; intros [|y p2] E; simpl in E.
  - auto.
  - injection E as <- E. exfalso. apply N1. rewrite E.
    apply in_or_app. right. now left.
  - injection E as -> E. exfalso. apply N2. rewrite <- E.
    apply in_or_app. right. now left.
  - injection E as -> E. destruct (IH _ E) as [-> ->]. auto.
Qed.

Lemma skipn_app_exact {A} (p t : list A) : skipn (length p) (p ++ t) = t.
Proof. induction p; simpl; auto. Qed.

(** A subject without a parenthesized hash code at its end is left as it
    is. *)
Theorem stripHashCode_none s :
  (forall p t, s = p ++ t -> ~ IsHashCode t) -> stripHashCode s = s.
Proof.
  intros H. apply replace_no_match, search_None. intros d st Hd Hs.
  apply Steps_suffixHashCodeRe in Hs. destruct Hs as [_ Hs]. simpl in Hs.
  destruct Hs as [Hs | [w [t [E [_ Hs]]]]].
  - apply (H (firstn d s) (skipn d s)); [|assumption].
    symmetry. apply firstn_skipn.
  - apply (H (firstn d s ++ [w]) t); [|assumption].
    rewrite <- app_assoc. simpl. rewrite <- E. symmetry. apply firstn_skipn.
Qed.

Lemma search_suffixHashCodeRe p t :
  IsHashCode t ->
  exists i st, search suffixHashCodeRe (p ++ t) = Some (i, st) /\ rest st = [] /\
    (i = length p \/
     exists p' w, p = p' ++ [w] /\ isWhiteSpace w = true /\ i = length p') /\
    forall d st', d < i -> ~ Steps suffixHashCodeRe (start d (skipn d (p ++ t))) st'.
Proof.
  intros Ht. unfold search.
  destruct (searchFrom suffixHashCodeRe 0 (p ++ t)) as [[i st]|] eqn:E.
  - exists i, st. split; [reflexivity|].
    apply searchFrom_Some in E. destruct E as [d [-> [Hd [Hs Hmin]]]]. simpl in *.
    apply Steps_suffixHashCodeRe in Hs. destruct Hs as [Hend Hs]. simpl in Hs.
    split; [assumption|]. split; [|exact Hmin].
    pose proof (firstn_skipn d (p ++ t)) as F.
    assert (L : length (firstn d (p ++ t)) = d) by (rewrite length_firstn; lia).
    destruct Hs as [Hs | [w [t' [Et [Hw Hs]]]]].
    + left. destruct (hashCode_unique _ _ Hs Ht F) as [Hp _].
      rewrite Hp in L. lia.
    + right. rewrite Et in F.
      assert (G : (firstn d (p ++ t) ++ [w]) ++ t' = p ++ t)
        by (rewrite <- app_assoc; exact F).
      destruct (hashCode_unique _ _ Hs Ht G) as [Hp _].
      exists (firstn d (p ++ t)), w. split; [now symmetry|]. split; [assumption|].
      lia.
  - exfalso.
    destruct (@Steps_hashCodeTail_intro (start (length p) t) Ht) as [st' [Hs _]].
    apply (@searchFrom_None _ _ _ E (length p) st'); [rewrite length_app; lia|].
    simpl. rewrite skipn_app_exact.
    change suffixHashCodeRe with (Opt (Class isWhiteSpace) +> hashCodeTail).
    apply Steps_Seq. exists (start (length p) t). split; [apply StepsOptSkip | exact Hs].
Qed.

(** A parenthesized hash code at the end of the subject is removed,
    together with one unit of white space before it when there is one. *)
Theorem stripHashCode_suffix p t :
  IsHashCode t ->
  (forall p' w, p = p' ++ [w] -> isWhiteSpace w = false) ->
  stripHashCode (p ++ t) = p.
Proof.
  intros Ht Hp. unfold stripHashCode, Regex.replace.
  destruct (search_suffixHashCodeRe p Ht) as [i [st [-> [-> [Hi _]]]]].
  destruct Hi as [-> | [p' [w [E [Hw _]]]]].
  - rewrite firstn_app_exact by reflexivity. now rewrite app_nil_r.
  - rewrite (Hp p' w E) in Hw. discriminate.
Qed.

Theorem stripHashCode_space_suffix p w t :
  IsHashCode t -> isWhiteSpace w = true ->
  stripHashCode (p ++ w :: t) = p.
Proof.
  intros Ht Hw. unfold stripHashCode, Regex.replace.
  replace (p ++ w :: t) with ((p ++ [w]) ++ t) by (rewrite <- app_assoc; reflexivity).
  destruct (search_suffixHashCodeRe (p ++ [w]) Ht) as [i [st [-> [-> [Hi Hmin]]]]].
  destruct Hi as [-> | [p' [w' [E [_ ->]]]]].
  - exfalso.
    destruct (@Steps_hashCodeTail_intro (start (S (length p)) t) Ht) as [st' [Hs _]].
    apply (Hmin (length p) st'); [rewrite length_app; simpl; lia|].
    rewrite <- app_assoc, skipn_app_exact. simpl.
    change suffixHashCodeRe with (Opt (Class isWhiteSpace) +> hashCodeTail).
    apply Steps_Seq. exists (start (S (length p)) t). split; [|exact Hs].
    apply StepsOptTake. now apply StepsClass with (c := w).
  - apply app_inj_tail in E. destruct E as [<- _].
    rewrite <- app_assoc. rewrite firstn_app_exact by reflexivity. now rewrite app_nil_r.
Qed.

(** ** The string operations on examples *)

Example split_examples :
  split 10 (lit "a" ++ nl ++ lit "b") = [lit "a"; lit "b"] /\
  split 10 (lit "a" ++ nl) = [lit "a"; []] /\
  split 10 [] = [[]] /\
  splitLines (lit "a" ++ [13%N] ++ nl ++ [13%N] ++ lit "b" ++ [13%N; 13%N]) =
    [lit "a"; [13%N] ++ lit "b" ++ [13%N]].
Proof. repeat split. Qed.

Example trim_examples :
  trim ([32%N; 9%N] ++ lit "a b" ++ [160%N; 13%N]) = lit "a b" /\
  trim [32%N; 12288%N; 65279%N] = [] /\
  trim (lit "_ ") = lit "_".
Proof. repeat split. Qed.

Example JSON_stringify_examples :
  JSON_stringify (lit "a\b" ++ dq ++ nl ++ [1%N; 127%N; 233%N]) =
    dq ++ lit "a\\b\" ++ dq ++ lit "\n\u0001" ++ [127%N; 233%N] ++ dq /\
  JSON_stringify [55357%N; 56832%N] = dq ++ [55357%N; 56832%N] ++ dq /\
  JSON_stringify [56832%N; 55357%N] = dq ++ lit "\ude00\ud83d" ++ dq.
Proof. repeat split. Qed.

Example ofNat_examples :
  ofNat 0 = lit "0" /\ ofNat 7 = lit "7" /\ ofNat 97 = lit "97" /\ ofNat 100 = lit "100".
Proof. repeat split. Qed.

Example exec_examples :
  exec capitalizedWordRe (lit "Change SomeClass") =
    Some [Some (lit "Change "); Some (lit "Change")] /\
  exec capitalizedWordRe (lit "SomeClass to") = None /\
  exec capitalizedWordRe (lit "A.") = Some [Some (lit "A."); Some (lit "A")] /\
  exec capitalizedWordRe (lit "change") = None.
Proof. repeat split. Qed.

Example stripHashCode_examples :
  stripHashCode (lit "Fix it (#43)") = lit "Fix it" /\
  stripHashCode (lit "Fix it  ( #a_1 )") = lit "Fix it " /\
  stripHashCode (lit "Fix it(#43)") = lit "Fix it" /\
  stripHashCode (lit "Fix (#43) it") = lit "Fix (#43) it" /\
  stripHashCode (lit "Fix it (#)") = lit "Fix it (#)" /\
  stripHashCode (lit "Fix it (#1) (#2)") = lit "Fix it (#1)".
Proof. repeat split; vm_compute; reflexivity. Qed.

(** ** The tests of [inspection.test.ts] *)

Example test_correct_multi_line :
  checkSample (lit "Change SomeClass to OtherClass" ++ nl ++ nl ++ replacesBody)
    [] false = Ok [].
Proof. vm_compute. reflexivity. Qed.

Example test_one_liner_allowed :
  checkSample (lit "Change SomeClass to OtherClass") [] true = Ok [].
Proof. vm_compute. reflexivity. Qed.

Example test_too_few_lines :
  checkSample (lit "Change SomeClass to OtherClass") [] false =
  Ok [lit "Expected at least three lines (subject, empty, body), but got: 1"].
Proof. vm_compute. reflexivity. Qed.

Example test_missing_body :
  checkSample (lit "Change SomeClass to OtherClass" ++ nl ++ nl) [] false =
  Ok [lit "Unexpected empty body"].
Proof. vm_compute. reflexivity. Qed.

Example test_missing_body_one_liners_allowed :
  checkSample (lit "Change SomeClass to OtherClass" ++ nl) [] true =
  Ok [lit "Expected at least three lines (subject, empty, body) in a multi-line message, but got: 2"].
Proof. vm_compute. reflexivity. Qed.

Example test_missing_empty_line :
  checkSample (lit "Change SomeClass to OtherClass" ++ nl ++ lit "---" ++ nl ++
               replacesBody) [] false =
  Ok [lit "Expected an empty line between the subject and the body, but got a second line of length: 3"].
Proof. vm_compute. reflexivity. Qed.

Example test_non_capitalized :
  checkSample (lit "SomeClass to OtherClass" ++ nl ++ nl ++ replacesBody) [] false =
  Ok [lit "The subject must start with a capitalized verb (e.g., " ++ dq ++
      lit "Change" ++ dq ++ lit ")."].
Proof. vm_compute. reflexivity. Qed.

Example test_non_verb :
  checkSample (lit "Replaced SomeClass to OtherClass" ++ nl ++ nl ++ replacesBody)
    [] false = Ok [imperativeMoodError (lit "Replaced")] /\
  checkSample (lit "Replaced SomeClass to OtherClass" ++ nl ++ nl ++ replacesBody)
    [lit "table"] false = Ok [imperativeMoodErrorAdditional (lit "Replaced")].
Proof. split; vm_compute; reflexivity. Qed.

Example test_additional_verb :
  checkSample (lit "Table that for me" ++ nl ++ nl ++ lit "This is a dummy commit.")
    [lit "table"] false = Ok [].
Proof. vm_compute. reflexivity. Qed.

Example test_trailing_dot :
  checkSample (lit "Change SomeClass to OtherClass." ++ nl ++ nl ++ replacesBody)
    [] false = Ok [lit "The subject must not end with a dot ('.')."] /\
  checkSample (lit "Change SomeClass to OtherClass.") [] true =
    Ok [lit "The subject must not end with a dot ('.')."].
Proof. split; vm_compute; reflexivity. Qed.

Example test_long_body_line :
  checkSample
    (lit "Change SomeClass to OtherClass" ++ nl ++ nl ++
     lit "This replaces the SomeClass with OtherClass in all of the module " ++
     lit "since Some class was deprecated.") [] false =
  Ok [lit "The line 3 of the message (line 1 of the body) exceeds the limit of " ++
      lit "72 characters. The line contains 97 characters: " ++ dq ++
      lit "This replaces the SomeClass with OtherClass in all of the module since " ++
      lit "Some class was deprecated." ++ dq ++ lit "."].
Proof. vm_compute. reflexivity. Qed.

Example test_72_characters_and_carriage_returns :
  checkSample
    (lit "Do something" ++ nl ++ nl ++
     lit "This patch fixes a typo in the readme file where this project was called" ++
     [13%N] ++ nl ++ lit "dead-csharp instead of doctest-csharp." ++ [13%N] ++ nl ++
     lit "123456789012345678901234567890123456789012345678901234567890123456789012")
    [] false = Ok [].
Proof. vm_compute. reflexivity. Qed.

Example test_body_without_first_word :
  checkSample (lit "Change SomeClass to OtherClass" ++ nl ++ nl ++ lit "* Do something")
    [] false = Ok [].
Proof. vm_compute. reflexivity. Qed.

Example test_duplicate_first_word :
  checkSample
    (lit "Change SomeClass to OtherClass" ++ nl ++ nl ++
     lit "Change SomeClass so that OtherClass does not conflict..") [] false =
  Ok [lit "The first word of the subject (" ++ dq ++ lit "Change" ++ dq ++
      lit ") must not match the first word of the body."].
Proof. vm_compute. reflexivity. Qed.

Example test_merge_message :
  checkSample (lit "Merge branch 'V20DataModel' into miho/Conform-to-spec") [] false
  = Ok [].
Proof. vm_compute. reflexivity. Qed.

Example test_url_line :
  checkSample
    (lit "Do something" ++ nl ++ nl ++
     lit "This patch does something with the URL:" ++ nl ++ longUrl ++ nl ++
     lit "The next line conforms to the line length.") [] false = Ok [].
Proof. vm_compute. reflexivity. Qed.

Example test_link_definition :
  checkSample
    (lit "Do something" ++ nl ++ nl ++
     lit "This patch does something with the URL: [1]" ++ nl ++ nl ++
     lit "[1]: " ++ longUrl ++ nl ++ nl ++
     lit "The long, long, long, long, long, long, long, long, long line is too long.")
    [] false =
  Ok [lit "The line 7 of the message (line 5 of the body) exceeds " ++
      lit "the limit of 72 characters. The line contains 74 characters: " ++ dq ++
      lit "The long, long, long, long, long, long, long, long, long line is too long." ++
      dq ++ lit "."].
Proof. vm_compute. reflexivity. Qed.

(** * The claims *)

(** ** C1: the merge exemption *)

(** C1 as stated fails: a message whose first line has the merge form and
    that goes on with another line is not exempted; here it gets the
    two-line structural error instead of the empty report. *)
Lemma C1_merge_line_followed_by_text :
  IsMergeMessage (lit "Merge branch 'a' into b") /\
  checkSample (lit "Merge branch 'a' into b" ++ nl ++ lit "x") [] false
    = Ok [lit "Expected at least three lines (subject, empty, body) in a multi-line message, but got: 2"] /\
  checkSample (lit "Merge branch 'a' into b" ++ nl ++ lit "x") [] false <> Ok [].
Proof.
  split; [|split].
  - exists (lit "a"), (lit "b"). repeat split; discriminate.
  - vm_compute. reflexivity.
  - vm_compute. discriminate.
Qed.

(** C1, amended: for every message that is, as a whole, one line of the
    form [Merge branch '<ref>' into <ref>], both refs non-empty and free of
    control characters, space and [~ ^ : ? * [], [check] returns the empty
    report, whatever the additional verbs and the one-liner flag. *)
Theorem C1_merge_message_exempt SET lower msg verbs allow :
  IsMergeMessage msg -> check SET lower msg verbs allow = Ok [].
Proof. intros H. apply check_merge. now apply test_mergeMessageRe. Qed.

Lemma C1_merge_message_exempt_witness :
  IsMergeMessage (lit "Merge branch 'V20DataModel' into miho/Conform-to-spec") /\
  check sampleVerbs asciiOnly
    (lit "Merge branch 'V20DataModel' into miho/Conform-to-spec") [] false = Ok [].
Proof.
  assert (H : IsMergeMessage (lit "Merge branch 'V20DataModel' into miho/Conform-to-spec")).
  { exists (lit "V20DataModel"), (lit "miho/Conform-to-spec").
    repeat split; try discriminate; reflexivity. }
  split; [exact H | exact (C1_merge_message_exempt sampleVerbs asciiOnly [] false H)].
Defined.

(** ** C2: the length sentence of the subject *)

(** The subject of the test about hash codes loses its suffix and passes;
    so does a subject of 55 units that has 49 without its suffix. *)
Example hash_code_tolerated :
  stripHashCode (lit "Unify all license files to LICENSE.txt naming (#43)")
    = lit "Unify all license files to LICENSE.txt naming" /\
  checkSubject sampleVerbs asciiOnly
    (lit "Unify all license files to LICENSE.txt naming (#43)") [] = Ok [] /\
  length (lit "Unify all license files to LICENSE.txt naming now (#43)") = 55 /\
  length (stripHashCode (lit "Unify all license files to LICENSE.txt naming now (#43)"))
    = 49 /\
  checkSubject sampleVerbs asciiOnly
    (lit "Unify all license files to LICENSE.txt naming now (#43)") [] = Ok [].
Proof. repeat split; vm_compute; reflexivity. Qed.

(** C2: the code departs from the claim.  The subject below has 57 units
    and its suffix-stripped form has 51; the length sentence fires, as the
    stripped form exceeds 50, and quotes the stripped form, but the length
    it cites is 57, that of the subject before stripping: the source
    interpolates [subject.length] right after testing
    [subjectWoCode.length], whereas [checkBody], and [CheckSubject] in the
    PowerShell rewrite of the check, cite the length of the string they
    quote. *)
Theorem C2_length_sentence_cites_unstripped_length :
  length (lit "Unify all license files to LICENSExx.txt naming now (#43)") = 57 /\
  stripHashCode (lit "Unify all license files to LICENSExx.txt naming now (#43)")
    = lit "Unify all license files to LICENSExx.txt naming now" /\
  length (lit "Unify all license files to LICENSExx.txt naming now") = 51 /\
  checkSubject sampleVerbs asciiOnly
    (lit "Unify all license files to LICENSExx.txt naming now (#43)") [] =
    Ok [lit "The subject exceeds the limit of 50 characters (got: 57, JSONified: " ++
        dq ++ lit "Unify all license files to LICENSExx.txt naming now" ++ dq ++
        lit ")"].
Proof.
  split; [reflexivity|]. split; [vm_compute; reflexivity|].
  split; [reflexivity|]. vm_compute. reflexivity.
Qed.

(** ** C3: the separator error stands alone *)

(** C3: for every message with at least three logical lines whose second
    logical line is not empty, [check] returns exactly the separator error,
    which names the length of that line; the sentence is neither a subject
    nor a body sentence, so none of those rules ran. *)
Theorem C3_bad_separator_reported_alone SET lower msg verbs allow :
  3 <= length (splitLines msg) ->
  nth 1 (splitLines msg) [] <> [] ->
  check SET lower msg verbs allow =
    Ok [lit "Expected an empty line between the subject and the body, but got a second line of length: "
        ++ ofNat (length (nth 1 (splitLines msg) []))] /\
  forall errs, check SET lower msg verbs allow = Ok errs ->
    Forall (fun e => ~ SubjectError e /\ ~ BodyError e) errs.
Proof.
  intros Hl Hs. rewrite (check_bad_separator SET lower msg verbs allow Hl Hs). split.
  - reflexivity.
  - intros errs H. injection H as <-. constructor; [|constructor].
    assert (Hsep : StructuralError (separatorError (length (nth 1 (splitLines msg) []))))
      by constructor.
    split.
    + intros H. apply (SubjectError_not_structural H Hsep).
    + now apply StructuralError_not_body.
Qed.

Lemma C3_bad_separator_reported_alone_witness :
  check sampleVerbs asciiOnly
    (lit "Change SomeClass to OtherClass" ++ nl ++ lit "---" ++ nl ++
     lit "This replaces the SomeClass.") [] false =
  Ok [lit "Expected an empty line between the subject and the body, but got a second line of length: 3"].
Proof.
  refine (proj1 (@C3_bad_separator_reported_alone sampleVerbs asciiOnly
    (lit "Change SomeClass to OtherClass" ++ nl ++ lit "---" ++ nl ++
     lit "This replaces the SomeClass.") [] false _ _)).
  - vm_compute. lia.
  - vm_compute. discriminate.
Defined.

(** ** C4: the three subject rules *)



(** ** C5: long body lines *)

(** C5 as stated fails: a body that is one line of 73 spaces is neither a
    URL line nor a link definition and is longer than 72, yet [checkBody],
    and [check] with it, reports the blank body and no length sentence. *)
Lemma C5_single_blank_line_of_73 :
  length (repeat 32%N 73) = 73 /\
  test urlLineRe (repeat 32%N 73) = false /\
  test linkDefinitionRe (repeat 32%N 73) = false /\
  checkBody asciiOnly (lit "Do it") [repeat 32%N 73] =
    Ok [lit "Unexpected empty body"] /\
  checkSample (lit "Do it" ++ nl ++ nl ++ repeat 32%N 73) [] false =
    Ok [lit "Unexpected empty body"] /\
  ~ In (bodyLineLengthError 0 (repeat 32%N 73)) [lit "Unexpected empty body"].
Proof.
  split; [reflexivity|]. split; [vm_compute; reflexivity|].
  split; [vm_compute; reflexivity|]. split; [vm_compute; reflexivity|].
  split; [vm_compute; reflexivity|].
  intros [H|[]]. discriminate.
Qed.

(** C5, amended: for every body that is not a single line that is blank
    after trimming, and every line of it, at body index [i]: [checkBody]
    returns a list; when the line is a bare URL line or a link definition,
    the list holds no length sentence about index [i], whatever the length
    of the line; when it is neither, the list holds the length sentence
    about it, which cites line [i + 3] of the message, line [i + 1] of the
    body, the number of units of the line and its JSON-quoted form, if the
    line has more than 72 units, and no length sentence about index [i] if
    it has at most 72. *)
Theorem C5_body_line_length lower subject bodyLines i line :
  ~ (length bodyLines = 1 /\ trim (nth 0 bodyLines []) = []) ->
  nth_error bodyLines i = Some line ->
  exists errs,
    checkBody lower subject bodyLines = Ok errs /\
    (IsUrlLine line \/ IsLinkDefinition line ->
       forall l, ~ In (bodyLineLengthError i l) errs) /\
    (~ IsUrlLine line -> ~ IsLinkDefinition line ->
       (72 < length line ->
          In (lit "The line " ++ ofNat (i + 3) ++ lit " of the message (line " ++
              ofNat (i + 1) ++
              lit " of the body) exceeds the limit of 72 characters. The line contains " ++
              ofNat (length line) ++ lit " characters: " ++ JSON_stringify line ++
              lit ".") errs) /\
       (length line <= 72 -> forall l, ~ In (bodyLineLengthError i l) errs)).
Proof.
  intros Hb Hi.
  assert (Hne : bodyLines <> []) by (intros ->; destruct i; discriminate).
  rewrite (checkBody_not_blank lower subject Hne Hb).
  eexists. split; [reflexivity|]. split.
  - intros Hex l Hin. apply isExemptLine_spec in Hex.
    apply In_checkBody_length_error in Hin.
    destruct Hin as [line' [H1 [H2 _]]]. congruence.
  - intros Hu Hd. split.
    + intros Hlen. apply in_or_app. left. apply In_checkBodyLines.
      exists i, line. split; [assumption|]. split.
      * destruct (isExemptLine line) eqn:E; [|reflexivity].
        apply isExemptLine_spec in E. tauto.
      * split; [assumption | reflexivity].
    + intros Hlen l Hin. apply In_checkBody_length_error in Hin.
      destruct Hin as [line' [H1 [_ H3]]].
      assert (line' = line) by congruence. subst. lia.
Qed.

Lemma C5_body_line_length_witness :
  exists errs,
    checkBody asciiOnly (lit "Do something")
      [lit "This patch does it."; repeat 120%N 73] = Ok errs /\
    In (lit "The line " ++ ofNat 4 ++ lit " of the message (line " ++ ofNat 2 ++
        lit " of the body) exceeds the limit of 72 characters. The line contains " ++
        ofNat 73 ++ lit " characters: " ++ JSON_stringify (repeat 120%N 73) ++
        lit ".") errs.
Proof.
  destruct (@C5_body_line_length asciiOnly (lit "Do something")
              [lit "This patch does it."; repeat 120%N 73] 1 (repeat 120%N 73))
    as [errs [H [_ Hlong]]].
  - intros [H _]. vm_compute in H. discriminate.
  - reflexivity.
  - exists errs. split; [exact H|]. refine (proj1 (Hlong _ _) _).
    + intros Hu. apply test_urlLineRe in Hu. vm_compute in Hu. discriminate.
    + intros Hd. apply test_linkDefinitionRe in Hd. vm_compute in Hd. discriminate.
    + vm_compute. lia.
Defined.

(** ** C6: messages of one or two lines *)

(** C6 as stated fails: a merge message is one logical line, and with
    one-liners disallowed [check] returns the empty report for it, not the
    structural error. *)
Lemma C6_one_line_merge_message_passes :
  length (splitLines (lit "Merge branch 'a' into b")) = 1 /\
  checkSample (lit "Merge branch 'a' into b") [] false = Ok [] /\
  checkSample (lit "Merge branch 'a' into b") [] false <>
    Ok [lit "Expected at least three lines (subject, empty, body), but got: 1"].
Proof.
  split; [|split].
  - vm_compute. reflexivity.
  - vm_compute. reflexivity.
  - vm_compute. discriminate.
Qed.

(** C6, amended: for every message that the merge pattern does not match:
    with exactly one logical line and one-liners disallowed, [check]
    returns exactly the error that cites 1; with exactly one logical line
    and one-liners allowed, [check] is [checkSubject] on that line, so every
    sentence returned is a subject sentence, none structural, none of the
    body; with exactly two logical lines, whatever the flag, [check] returns
    exactly the multi-line variant that cites 2. *)
Theorem C6_one_and_two_line_messages SET lower msg verbs :
  test mergeMessageRe msg = false ->
  (length (splitLines msg) = 1 ->
     check SET lower msg verbs false =
       Ok [lit "Expected at least three lines (subject, empty, body), but got: 1"] /\
     check SET lower msg verbs true =
       checkSubject SET lower (nth 0 (splitLines msg) []) verbs /\
     forall errs, check SET lower msg verbs true = Ok errs ->
       Forall (fun e => SubjectError e /\ ~ StructuralError e /\ ~ BodyError e) errs) /\
  (length (splitLines msg) = 2 ->
     forall allow, check SET lower msg verbs allow =
       Ok [lit "Expected at least three lines (subject, empty, body) in a multi-line message, but got: 2"]).
Proof.
  intros Hm. split.
  - intros Hl. split; [|split].
    + exact (check_too_few SET lower msg verbs Hm Hl).
    + exact (check_one_liner SET lower msg verbs Hm Hl).
    + rewrite (check_one_liner SET lower msg verbs Hm Hl). intros errs H.
      apply checkSubject_errors in H. revert H. apply Forall_impl.
      intros e He. split; [assumption|]. split.
      * now apply SubjectError_not_structural.
      * now apply SubjectError_not_body.
  - intros Hl allow. exact (check_two_lines SET lower msg verbs allow Hl).
Qed.

Lemma C6_one_and_two_line_messages_witness :
  check sampleVerbs asciiOnly (lit "Change SomeClass to OtherClass") [] false =
    Ok [lit "Expected at least three lines (subject, empty, body), but got: 1"] /\
  check sampleVerbs asciiOnly (lit "Change SomeClass to OtherClass" ++ nl) [] true =
    Ok [lit "Expected at least three lines (subject, empty, body) in a multi-line message, but got: 2"].
Proof.
  split.
  - refine (proj1 (proj1 (@C6_one_and_two_line_messages sampleVerbs asciiOnly
      (lit "Change SomeClass to OtherClass") [] _) _)); reflexivity.
  - refine (proj2 (@C6_one_and_two_line_messages sampleVerbs asciiOnly
      (lit "Change SomeClass to OtherClass" ++ nl) [] _) _ true); reflexivity.
Defined.

(** ** C7: the duplicated first word *)

(** C7: when the subject and the first body line both have a leading
    capitalized word and the two are equal after lower-casing, [checkBody]
    returns the sentences about long lines, none of which is a
    duplicate-word sentence, and then the duplicate-word sentence once; when
    the two differ after lower-casing, or the subject or the first body
    line has no leading capitalized word, no duplicate-word sentence is
    returned and nothing is thrown. *)
Theorem C7_duplicate_first_word lower subject bodyLines :
  (forall ws wb,
     LeadingWord subject ws -> LeadingWord (nth 0 bodyLines []) wb ->
     (toLowerCase lower ws = toLowerCase lower wb ->
        exists lineErrors,
          checkBody lower subject bodyLines =
            Ok (lineErrors ++
                [lit "The first word of the subject (" ++ JSON_stringify ws ++
                 lit ") must not match the first word of the body."]) /\
          forall w, ~ In (duplicateWordError w) lineErrors) /\
     (toLowerCase lower ws <> toLowerCase lower wb ->
        exists errs, checkBody lower subject bodyLines = Ok errs /\
          forall w, ~ In (duplicateWordError w) errs)) /\
  ((forall w, ~ LeadingWord subject w) \/
   (forall w, ~ LeadingWord (nth 0 bodyLines []) w) ->
     exists errs, checkBody lower subject bodyLines = Ok errs /\
       forall w, ~ In (duplicateWordError w) errs).
Proof.
  split.
  - intros ws wb Hs Hb.
    rewrite (checkBody_with_word lower subject bodyLines Hb).
    rewrite (duplicateRule_words lower Hs Hb). split; intros He.
    + rewrite He, str_eqb_refl. exists (checkBodyLines 0 bodyLines).
      split; [reflexivity|]. intros w. apply checkBodyLines_no_duplicate.
    + apply str_eqb_neq in He. rewrite He, app_nil_r. eexists. split; [reflexivity|].
      intros w. apply checkBodyLines_no_duplicate.
  - intros H. rewrite checkBody_rules, (duplicateRule_skipped lower H), app_nil_r.
    eexists. split; [reflexivity|]. intros w Hin.
    destruct (length bodyLines =? 0); [destruct Hin as [E|[]]; discriminate|].
    destruct (_ && _); [destruct Hin as [E|[]]; discriminate|].
    revert Hin. apply checkBodyLines_no_duplicate.
Qed.

Lemma C7_duplicate_first_word_witness :
  exists lineErrors,
    checkBody asciiOnly (lit "Change SomeClass to OtherClass")
      [lit "Change SomeClass so that OtherClass does not conflict.."] =
      Ok (lineErrors ++
          [lit "The first word of the subject (" ++ JSON_stringify (lit "Change") ++
           lit ") must not match the first word of the body."]) /\
    forall w, ~ In (duplicateWordError w) lineErrors.
Proof.
  refine (proj1 (proj1 (@C7_duplicate_first_word asciiOnly
            (lit "Change SomeClass to OtherClass")
            [lit "Change SomeClass so that OtherClass does not conflict.."])
          (lit "Change") (lit "Change") _ _) _).
  - exists 67%N, (lit "hange"), 32%N, (lit "SomeClass to OtherClass").
    repeat split; reflexivity.
  - exists 67%N, (lit "hange"), 32%N, (lit "SomeClass so that OtherClass does not conflict..").
    repeat split; reflexivity.
  - reflexivity.
Defined.

(** ** C8: defects *)

(** C8: when the set of additional verbs holds an empty entry or an entry
    that differs from its lower-casing, [checkSubject] throws on every
    subject, and so does [check] wherever it checks a subject (a one-line
    message with one-liners allowed, or a message with a blank second line),
    instead of returning a list; with a valid set, [check] returns a list on
    every message and none of its sentences ends in a line feed; and the
    post-condition loop throws on any list that holds a sentence ending in a
    line feed. *)
Theorem C8_defects_abort SET lower verbs subject msg allow errors :
  (Exists (fun v => v = [] \/ v <> toLowerCase lower v) verbs ->
     (exists m, checkSubject SET lower subject verbs = Throw m) /\
     (test mergeMessageRe msg = false -> length (splitLines msg) = 1 ->
        exists m, check SET lower msg verbs true = Throw m) /\
     (3 <= length (splitLines msg) -> nth 1 (splitLines msg) [] = [] ->
        exists m, check SET lower msg verbs allow = Throw m)) /\
  (ValidVerbs lower verbs ->
     exists errs, check SET lower msg verbs allow = Ok errs /\
       Forall (fun e => endsWithChar 10 e = false) errs) /\
  (Exists (fun e => endsWithChar 10 e = true) errors ->
     exists m, checkPostCondition errors = Throw m).
Proof.
  split; [|split].
  - intros H. apply invalid_entry in H. split; [|split].
    + now apply checkSubject_throws.
    + intros Hm Hl. rewrite check_one_liner by assumption.
      now apply checkSubject_throws.
    + intros Hl Hs. rewrite check_subject_and_body by assumption.
      destruct (checkSubject_throws SET lower (nth 0 (splitLines msg) []) verbs H)
        as [m ->]. simpl. eauto.
  - intros H. apply valid_entries in H.
    destruct (check_returns SET lower msg verbs allow H) as [errs E].
    exists errs. split; [assumption|].
    apply check_errors in E. revert E. apply Forall_impl.
    intros e [He | [He | He]];
      auto using StructuralError_noNewline, SubjectError_noNewline, BodyError_noNewline.
  - apply checkPostCondition_throws.
Qed.

Lemma C8_defects_abort_witness :
  (exists m, checkSubject sampleVerbs asciiOnly (lit "Fix it") [lit "Table"] = Throw m) /\
  (exists errs, check sampleVerbs asciiOnly (lit "Fix it.") [lit "table"] true = Ok errs /\
     Forall (fun e => endsWithChar 10 e = false) errs) /\
  (exists m, checkPostCondition [lit "No body" ++ nl] = Throw m).
Proof.
  pose proof (@C8_defects_abort sampleVerbs asciiOnly [lit "Table"] (lit "Fix it")
                (lit "Fix it") true []) as [H1 _].
  pose proof (@C8_defects_abort sampleVerbs asciiOnly [lit "table"] (lit "Fix it.")
                (lit "Fix it.") true [lit "No body" ++ nl]) as [_ [H2 H3]].
  split; [|split].
  - refine (proj1 (H1 _)). apply Exists_cons_hd. right. vm_compute. discriminate.
  - apply H2. apply Forall_cons; [|apply Forall_nil].
    split; [discriminate | reflexivity].
  - apply H3. apply Exists_cons_hd. reflexivity.
Defined.

(** ** C9: no message has zero lines *)

(** C9: splitting yields at least one logical line for every input, the
    empty message yields one empty line, [check] never returns the sentence
    "The message is empty.", and the empty message with one-liners
    disallowed gets the structural error that cites 1. *)
Theorem C9_message_never_empty SET lower msg verbs allow :
  1 <= length (splitLines msg) /\
  (length (splitLines msg) =? 0) = false /\
  splitLines [] = [[]] /\
  neverReports (lit "The message is empty.") (check SET lower msg verbs allow) /\
  check SET lower [] verbs false =
    Ok [lit "Expected at least three lines (subject, empty, body), but got: 1"].
Proof.
  pose proof (splitLines_length msg) as Hl.
  split; [exact Hl|]. split; [apply Nat.eqb_neq; lia|]. split; [reflexivity|]. split.
  - unfold neverReports. destruct (check SET lower msg verbs allow) as [errs|] eqn:E;
      [|exact I].
    apply check_errors in E. intros Hin. rewrite Forall_forall in E.
    apply (Violation_not_messageEmpty (E _ Hin)). reflexivity.
  - apply check_too_few; reflexivity.
Qed.

(** ** C10: a subject that is one bare word *)



(** * Further properties of [inspection.ts] *)

(** ** The logical lines *)

Lemma endsWithChar_snoc c p x : endsWithChar c (p ++ [x]) = (x =? c)%N.
Proof.
  induction p as [|y p IH]; [reflexivity|].
  simpl. rewrite IH. destruct (p ++ [x]) eqn:E; [|reflexivity].
  destruct p; discriminate.
Qed.

Lemma endsWithChar_true c s : endsWithChar c s = true -> exists p, s = p ++ [c].
Proof.
  induction s as [|x s IH]; [discriminate|]. simpl.
  destruct s as [|y s].
  - intros H. apply N.eqb_eq in H. subst. now exists [].
  - intros H. destruct (IH H) as [p Hp]. exists (x :: p). now rewrite Hp.
Qed.

Lemma search_trailingCrRe_Some s i st :
  search trailingCrRe s = Some (i, st) ->
  s = firstn i s ++ [13%N] /\ rest st = [].
Proof.
  unfold search. intros H. apply searchFrom_Some in H.
  destruct H as [d [-> [Hd [Hs _]]]]. simpl in *.
  unfold trailingCrRe in Hs. split_seq Hs. apply Steps_Chr in Hs0.
  apply Steps_Eol in Hs. destruct Hs as [-> Hend]. destruct Hs0 as [Hr _].
  simpl in Hr. rewrite Hend in Hr. split; [|assumption].
  rewrite <- Hr. symmetry. apply firstn_skipn.
Qed.

Lemma search_trailingCrRe_None p : search trailingCrRe (p ++ [13%N]) <> None.
Proof.
  unfold search. intros H.
  apply (@searchFrom_None _ _ _ H (length p)
           {| pos := S (length p); rest := []; caps := [] |}).
  - rewrite length_app. simpl. lia.
  - simpl. rewrite skipn_app_exact. unfold trailingCrRe.
    apply Steps_Seq. exists {| pos := S (length p); rest := []; caps := [] |}.
    split; [|now apply StepsEol].
    now apply (@StepsClass (N.eqb 13) (start (length p) [13%N]) 13%N []).
Qed.

(** The pattern of [splitLines] removes one carriage return at the end of
    a line, and nothing else. *)
Lemma replace_trailingCrRe s : Regex.replace trailingCrRe [] s = dropTrailingCr s.
Proof.
  unfold dropTrailingCr, Regex.replace.
  destruct (search trailingCrRe s) as [[i st]|] eqn:E.
  - apply search_trailingCrRe_Some in E. destruct E as [E ->].
    remember (firstn i s) as p eqn:Hp. clear Hp. subst s.
    rewrite endsWithChar_snoc, removelast_last. simpl. now rewrite app_nil_r.
  - destruct (endsWithChar 13 s) eqn:H; [|reflexivity].
    apply endsWithChar_true in H. destruct H as [p ->].
    destruct (search_trailingCrRe_None p E).
Qed.

Lemma splitLines_map msg : splitLines msg = map dropTrailingCr (split 10 msg).
Proof.
  unfold splitLines. apply map_ext. intros l. apply replace_trailingCrRe.
Qed.

Lemma split_count c s : length (split c s) = S (count_occ N.eq_dec s c).
Proof.
  induction s as [|x s IH]; [reflexivity|]. simpl.
  destruct (N.eqb_spec x c) as [->|Hn].
  - destruct (N.eq_dec c c); [|congruence]. simpl. now rewrite IH.
  - destruct (N.eq_dec x c); [congruence|].
    destruct (split c s); simpl in *; [discriminate | exact IH].
Qed.

Lemma split_no_sep_inside c s : Forall (fun l => ~ In c l) (split c s).
Proof.
  induction s as [|x s IH]; simpl.
  - constructor; [tauto | constructor].
  - destruct (N.eqb_spec x c) as [->|Hn].
    + constructor; [tauto | exact IH].
    + destruct (split c s) as [|l ls]; [repeat constructor; simpl; tauto|].
      inversion IH; subst. constructor; [|assumption].
      simpl. tauto.
Qed.

Lemma join_split s : joinLines (split 10 s) = s.
Proof.
  induction s as [|x s IH]; [reflexivity|]. simpl.
  pose proof (split_length 10 s) as Hl.
  destruct (N.eqb_spec x 10) as [->|Hn].
  - destruct (split 10 s) as [|l ls] eqn:E; [simpl in Hl; lia|].
    simpl in *. now rewrite IH.
  - destruct (split 10 s) as [|l ls] eqn:E; [simpl in Hl; lia|].
    destruct ls; simpl in *; now rewrite <- IH.
Qed.

Lemma split_join lines :
  lines <> [] -> Forall (fun l => ~ In 10%N l) lines ->
  split 10 (joinLines lines) = lines.
Proof.
  induction lines as [|l lines IH]; [congruence|]. intros _ H.
  inversion H as [|? ? Hl Hls]; subst.
  destruct lines as [|l' lines].
  - simpl. apply split_no_sep. clear -Hl. induction l as [|x l IH]; [reflexivity|].
    simpl. destruct (N.eqb_spec x 10) as [->|]; [exfalso; apply Hl; now left|].
    simpl. apply IH. intros Hin. apply Hl. now right.
  - assert (E : split 10 (joinLines (l' :: lines)) = l' :: lines)
      by (apply IH; [discriminate | assumption]).
    change (joinLines (l :: l' :: lines))
      with (l ++ 10%N :: joinLines (l' :: lines)).
    remember (joinLines (l' :: lines)) as r eqn:Hr. clear -Hl E.
    induction l as [|x l IHl].
    + simpl. now rewrite E.
    + simpl. destruct (N.eqb_spec x 10) as [->|]; [exfalso; apply Hl; now left|].
      rewrite IHl by (intros Hin; apply Hl; now right). reflexivity.
Qed.

Lemma dropTrailingCr_subset l x : In x (dropTrailingCr l) -> In x l.
Proof.
  unfold dropTrailingCr. destruct (endsWithChar 13 l) eqn:E; [|auto].
  apply endsWithChar_true in E. destruct E as [p ->].
  rewrite removelast_last. intros H. apply in_or_app. now left.
Qed.

Lemma dropTrailingCr_cons c l :
  l <> [] \/ c <> 13%N -> dropTrailingCr (c :: l) = c :: dropTrailingCr l.
Proof.
  unfold dropTrailingCr. intros H. destruct l as [|y l].
  - destruct H as [H|H]; [congruence|]. simpl.
    destruct (N.eqb_spec c 13); [congruence | reflexivity].
  - change (endsWithChar 13 (c :: y :: l)) with (endsWithChar 13 (y :: l)).
    destruct (endsWithChar 13 (y :: l)); reflexivity.
Qed.

(** X1: a message has one logical line more than it has line feeds, no
    logical line holds a line feed, and joining the pieces of the split
    with line feeds gives the message back. *)
Theorem logical_lines_of_message msg :
  length (splitLines msg) = S (count_occ N.eq_dec msg 10%N) /\
  Forall (fun l => ~ In 10%N l) (splitLines msg) /\
  joinLines (split 10 msg) = msg.
Proof.
  split; [|split].
  - unfold splitLines. now rewrite length_map, split_count.
  - rewrite splitLines_map. apply Forall_map.
    pose proof (split_no_sep_inside 10 msg) as H. revert H. apply Forall_impl.
    intros l Hl Hin. apply Hl. now apply dropTrailingCr_subset.
  - apply join_split.
Qed.

(** X2: [line.replace(/\r$/, '')] removes exactly one carriage return from
    a line that ends with one, and leaves any other line as it is. *)
Theorem trailing_carriage_return_removed_once line :
  (forall p, line = p ++ [13%N] -> Regex.replace trailingCrRe [] line = p) /\
  (endsWithChar 13 line = false -> Regex.replace trailingCrRe [] line = line).
Proof.
  rewrite replace_trailingCrRe. unfold dropTrailingCr. split.
  - intros p ->. now rewrite endsWithChar_snoc, removelast_last.
  - now intros ->.
Qed.

Lemma trailing_carriage_return_removed_once_witness :
  Regex.replace trailingCrRe [] (lit "ab" ++ [13%N; 13%N]) = lit "ab" ++ [13%N] /\
  Regex.replace trailingCrRe [] ([13%N] ++ lit "ab") = [13%N] ++ lit "ab".
Proof.
  split.
  - apply (proj1 (trailing_carriage_return_removed_once (lit "ab" ++ [13%N; 13%N]))).
    reflexivity.
  - apply (proj2 (trailing_carriage_return_removed_once ([13%N] ++ lit "ab"))).
    reflexivity.
Defined.

(** X3: splitting is the inverse of joining: for a non-empty list of lines
    that hold no line feed and do not end with a carriage return, the
    logical lines of the lines joined with line feeds are those lines. *)
Theorem splitLines_joinLines lines :
  lines <> [] ->
  Forall (fun l => ~ In 10%N l /\ endsWithChar 13 l = false) lines ->
  splitLines (joinLines lines) = lines.
Proof.
  intros Hne H. rewrite splitLines_map, split_join.
  - rewrite <- (map_id lines) at 2. apply map_ext_Forall.
    revert H. apply Forall_impl. intros l [_ Hl]. unfold dropTrailingCr. now rewrite Hl.
  - assumption.
  - revert H. apply Forall_impl. tauto.
Qed.

Lemma splitLines_joinLines_witness :
  splitLines (joinLines [lit "Do it"; []; lit "Because."]) =
  [lit "Do it"; []; lit "Because."].
Proof.
  apply splitLines_joinLines; [discriminate|].
  repeat (apply Forall_cons;
          [split; [apply (@forallb_In_false (fun x => negb (x =? 10)%N)); reflexivity
                  | reflexivity]|]).
  apply Forall_nil.
Defined.

(** ** Line endings *)

Lemma toCRLF_no_lf s : ~ In 10%N s -> toCRLF s = s.
Proof.
  induction s as [|x s IH]; [reflexivity|]. intros H. simpl.
  destruct (N.eqb_spec x 10) as [->|]; [exfalso; apply H; now left|].
  rewrite IH; [reflexivity|]. intros Hin. apply H. now right.
Qed.

Lemma split_toCRLF s :
  ~ In 13%N s -> map dropTrailingCr (split 10 (toCRLF s)) = split 10 s.
Proof.
  induction s as [|x s IH]; [reflexivity|]. intros H.
  assert (Hs : ~ In 13%N s) by (intros Hin; apply H; now right).
  assert (Hx : x <> 13%N) by (intros ->; apply H; now left).
  specialize (IH Hs). simpl.
  destruct (N.eqb_spec x 10) as [->|Hn].
  - simpl. now rewrite IH.
  - simpl. destruct (N.eqb_spec x 10); [congruence|].
    pose proof (split_length 10 (toCRLF s)) as L1.
    pose proof (split_length 10 s) as L2.
    destruct (split 10 (toCRLF s)) as [|l ls]; [simpl in L1; lia|].
    destruct (split 10 s) as [|l0 ls0]; [simpl in L2; lia|].
    simpl in IH. injection IH as Hl Hls. simpl. rewrite Hls. f_equal.
    rewrite <- Hl. apply dropTrailingCr_cons.
    destruct l; [now right | left; discriminate].
Qed.

Section SameLines.

Variable SET : JSSet.t.
Variable lower : str -> str.

(** Past the merge test, [check] reads the message through its logical
    lines only. *)
Lemma check_same_lines m m' verbs allow :
  test mergeMessageRe m = test mergeMessageRe m' ->
  splitLines m = splitLines m' ->
  check SET lower m verbs allow = check SET lower m' verbs allow.
Proof. intros Ht Hl. unfold check. now rewrite Ht, Hl. Qed.

End SameLines.

Lemma map_dropTrailingCr_id lines :
  Forall (fun l => ~ In 13%N l) lines -> map dropTrailingCr lines = lines.
Proof.
  induction 1 as [|l lines Hl _ IH]; [reflexivity|]. simpl. rewrite IH. f_equal.
  unfold dropTrailingCr. destruct (endsWithChar 13 l) eqn:El; [|reflexivity].
  apply endsWithChar_true in El. destruct El as [p ->].
  exfalso. apply Hl. apply in_or_app. right. now left.
Qed.

Lemma split_pieces_subset c x s :
  ~ In x s -> Forall (fun l => ~ In x l) (split c s).
Proof.
  induction s as [|y s IH]; intros H; simpl.
  - constructor; [tauto | constructor].
  - assert (Hs : ~ In x s) by (intros Hin; apply H; now right).
    specialize (IH Hs). destruct (N.eqb_spec y c).
    + constructor; [tauto | assumption].
    + destruct (split c s) as [|l ls].
      * repeat constructor. simpl. intros [->|[]]. apply H. now left.
      * inversion IH; subst. constructor; [|assumption].
        simpl. intros [->|Hin]; [apply H; now left | contradiction].
Qed.

(** X4: Windows line ends do not change the report: for a message without
    carriage returns, writing every line end as a carriage return and a
    line feed gives the same logical lines and the same result of [check],
    returned or thrown. *)
Theorem check_ignores_carriage_returns SET lower msg verbs allow :
  ~ In 13%N msg ->
  splitLines (toCRLF msg) = splitLines msg /\
  check SET lower (toCRLF msg) verbs allow = check SET lower msg verbs allow.
Proof.
  intros H.
  assert (E : splitLines (toCRLF msg) = splitLines msg).
  { rewrite (splitLines_map (toCRLF msg)), split_toCRLF by assumption.
    rewrite splitLines_map. symmetry. apply map_dropTrailingCr_id.
    now apply split_pieces_subset. }
  split; [exact E|]. apply check_same_lines; [|exact E].
  destruct (in_dec N.eq_dec 10%N msg) as [Hlf|Hlf].
  - assert (L : 2 <= length (splitLines msg)).
    { unfold splitLines. rewrite length_map, split_count.
      destruct (count_occ_In N.eq_dec msg 10%N) as [C _]. apply C in Hlf. lia. }
    rewrite (not_merge_multi_line msg L).
    apply not_merge_multi_line. now rewrite E.
  - now rewrite toCRLF_no_lf.
Qed.

Lemma check_ignores_carriage_returns_witness :
  toCRLF (lit "Do it" ++ nl ++ nl ++ lit "Because.") =
    lit "Do it" ++ [13%N] ++ nl ++ [13%N] ++ nl ++ lit "Because." /\
  check sampleVerbs asciiOnly (toCRLF (lit "Do it" ++ nl ++ nl ++ lit "Because.")) [] false =
  check sampleVerbs asciiOnly (lit "Do it" ++ nl ++ nl ++ lit "Because.") [] false.
Proof.
  split; [reflexivity|].
  apply (proj2 (@check_ignores_carriage_returns sampleVerbs asciiOnly
                  (lit "Do it" ++ nl ++ nl ++ lit "Because.") [] false
                  ltac:(apply (@forallb_In_false (fun x => negb (x =? 13)%N)); reflexivity))).
Defined.

(** ** What is thrown *)

Section Thrown.

Variable SET : JSSet.t.
Variable lower : str -> str.

Lemma checkAdditionalVerbs_Throw verbs m :
  checkAdditionalVerbs lower verbs = Throw m ->
  exists pre v post,
    verbs = pre ++ v :: post /\ ValidVerbs lower pre /\
    ((v = [] /\ m = lit "Unexpected empty additional verb") \/
     (v <> [] /\ v <> toLowerCase lower v /\
      m = lit "All additional verbs expected in lower case, but got: " ++ v)).
Proof.
  induction verbs as [|v verbs IH]; simpl; [discriminate|].
  destruct (length v =? 0) eqn:El.
  - intros H. injection H as <-. exists [], v, verbs.
    split; [reflexivity|]. split; [constructor|]. left.
    apply Nat.eqb_eq in El. destruct v; [auto | discriminate].
  - assert (Hv : v <> []) by (intros ->; discriminate).
    destruct (str_eqb v (toLowerCase lower v)) eqn:Ee; simpl.
    + intros H. destruct (IH H) as [pre [v' [post [-> [Hp Hm]]]]].
      exists (v :: pre), v', post. split; [reflexivity|]. split; [|exact Hm].
      constructor; [|exact Hp]. apply str_eqb_eq in Ee. auto.
    + intros H. injection H as <-. exists [], v, verbs.
      split; [reflexivity|]. split; [constructor|]. right.
      apply str_eqb_neq in Ee. auto.
Qed.

Lemma checkSubject_Throw subject verbs m :
  checkSubject SET lower subject verbs = Throw m ->
  checkAdditionalVerbs lower verbs = Throw m.
Proof.
  destruct (checkAdditionalVerbs lower verbs) as [[]|m'] eqn:E.
  - rewrite (checkSubject_rules SET lower subject verbs E). discriminate.
  - unfold checkSubject. rewrite E. simpl. congruence.
Qed.

Lemma check_Throw msg verbs allow m :
  check SET lower msg verbs allow = Throw m ->
  checkAdditionalVerbs lower verbs = Throw m.
Proof.
  destruct (test mergeMessageRe msg) eqn:Hm.
  - rewrite check_merge by assumption. discriminate.
  - pose proof (splitLines_length msg) as Hpos.
    destruct (Nat.eq_dec (length (splitLines msg)) 1) as [H1|H1];
      [|destruct (Nat.eq_dec (length (splitLines msg)) 2) as [H2|H2]].
    + destruct allow.
      * rewrite check_one_liner by assumption. apply checkSubject_Throw.
      * rewrite check_too_few by assumption. discriminate.
    + rewrite check_two_lines by assumption. discriminate.
    + destruct (nth 1 (splitLines msg) []) as [|x l] eqn:Hs.
      * rewrite check_subject_and_body by (assumption || lia).
        destruct (checkSubject _ _ _ _) as [e1|m1] eqn:E1.
        -- rewrite checkBody_rules. discriminate.
        -- simpl. intros H. injection H as <-. now apply checkSubject_Throw in E1.
      * rewrite check_bad_separator by (lia || (rewrite Hs; discriminate)).
        discriminate.
Qed.

End Thrown.

(** X5: whatever [check] throws is the message of the pre-condition loop
    about the first entry of the additional verbs that is empty or not in
    lower case.  The other [throw] statements of the file (no group in the
    match, undefined [subjectBody], a sentence ending in a line feed) are
    never reached. *)
Theorem check_throws_only_for_additional_verbs SET lower msg verbs allow m :
  check SET lower msg verbs allow = Throw m ->
  exists pre v post,
    verbs = pre ++ v :: post /\ ValidVerbs lower pre /\
    ((v = [] /\ m = lit "Unexpected empty additional verb") \/
     (v <> [] /\ v <> toLowerCase lower v /\
      m = lit "All additional verbs expected in lower case, but got: " ++ v)).
Proof. intros H. eapply checkAdditionalVerbs_Throw, check_Throw, H. Qed.

Lemma check_throws_only_for_additional_verbs_witness :
  exists pre v post,
    [lit "table"; lit "reWrap"; []] = pre ++ v :: post /\ ValidVerbs asciiOnly pre /\
    ((v = [] /\ lit "All additional verbs expected in lower case, but got: reWrap"
                = lit "Unexpected empty additional verb") \/
     (v <> [] /\ v <> toLowerCase asciiOnly v /\
      lit "All additional verbs expected in lower case, but got: reWrap" =
      lit "All additional verbs expected in lower case, but got: " ++ v)).
Proof.
  apply (@check_throws_only_for_additional_verbs sampleVerbs asciiOnly
           (lit "Do it") [lit "table"; lit "reWrap"; []] true).
  vm_compute. reflexivity.
Defined.

(** ** The body that [check] hands over *)

Lemma checkBodyLines_not e i lines :
  firstn 5 e <> lit "The l" -> ~ In e (checkBodyLines i lines).
Proof.
  intros H Hin. pose proof (checkBodyLines_prefix i lines) as P.
  rewrite Forall_forall in P. apply P in Hin. contradiction.
Qed.

Lemma duplicateRule_not lower e subject line0 :
  firstn 5 e <> lit "The f" -> ~ In e (duplicateRule lower subject line0).
Proof.
  intros H Hin. pose proof (duplicateRule_prefix lower subject line0) as P.
  rewrite Forall_forall in P. apply P in Hin. contradiction.
Qed.

(** X6: [check] never returns "At least one line is expected in the body,
    but got empty body.": the body it passes to [checkBody] is what follows
    the second of at least three lines, which is never empty. *)
Theorem check_never_reports_empty_body SET lower msg verbs allow :
  (3 <= length (splitLines msg) -> skipn 2 (splitLines msg) <> []) /\
  neverReports
    (lit "At least one line is expected in the body, but got empty body.")
    (check SET lower msg verbs allow).
Proof.
  assert (Hbody : 3 <= length (splitLines msg) -> skipn 2 (splitLines msg) <> []).
  { destruct (splitLines msg) as [|a [|b [|c l]]]; simpl; try lia. discriminate. }
  split; [exact Hbody|]. unfold neverReports.
  destruct (check SET lower msg verbs allow) as [errs|] eqn:E; [|exact I].
  intros Hin. revert E.
  destruct (test mergeMessageRe msg) eqn:Hm.
  { rewrite check_merge by assumption. intros H. injection H as <-. destruct Hin. }
  pose proof (splitLines_length msg) as Hpos.
  destruct (Nat.eq_dec (length (splitLines msg)) 1) as [H1|H1];
    [|destruct (Nat.eq_dec (length (splitLines msg)) 2) as [H2|H2]].
  - destruct allow.
    + rewrite check_one_liner by assumption. intros H.
      apply checkSubject_errors in H. rewrite Forall_forall in H.
      apply H, SubjectError_prefix in Hin. discriminate.
    + rewrite check_too_few by assumption. intros H. injection H as <-.
      destruct Hin as [H|[]]. discriminate.
  - rewrite check_two_lines by assumption. intros H. injection H as <-.
    destruct Hin as [H|[]]. discriminate.
  - destruct (nth 1 (splitLines msg) []) as [|x l] eqn:Hs.
    + rewrite check_subject_and_body by (assumption || lia).
      assert (L : (length (skipn 2 (splitLines msg)) =? 0) = false).
      { apply Nat.eqb_neq. intros L0. apply length_zero_iff_nil in L0.
        revert L0. apply Hbody. lia. }
      remember (skipn 2 (splitLines msg)) as body eqn:Hb. clear Hb.
      destruct (checkSubject _ _ _ _) as [e1|] eqn:E1; [|discriminate].
      rewrite checkBody_rules. cbn [bind]. intros H. injection H as <-.
      apply in_app_or in Hin. destruct Hin as [Hin|Hin].
      * apply checkSubject_errors in E1. rewrite Forall_forall in E1.
        apply E1, SubjectError_prefix in Hin. discriminate.
      * rewrite L in Hin. destruct (_ && _).
        -- destruct Hin as [H|[]]. discriminate.
        -- apply in_app_or in Hin. destruct Hin as [Hin|Hin]; revert Hin.
           ++ apply checkBodyLines_not. discriminate.
           ++ apply duplicateRule_not. discriminate.
    + rewrite check_bad_separator by (lia || (rewrite Hs; discriminate)).
      intros H. injection H as <-. destruct Hin as [H|[]]. discriminate.
Qed.

(** ** Blank lines *)

Lemma trimStart_nil s : trimStart s = [] <-> forallb isWhiteSpace s = true.
Proof.
  induction s as [|c s IH]; simpl; [tauto|].
  destruct (isWhiteSpace c); simpl; [exact IH | split; discriminate].
Qed.

Lemma trimStart_forallb s :
  forallb isWhiteSpace (trimStart s) = true -> forallb isWhiteSpace s = true.
Proof.
  induction s as [|c s IH]; simpl; [auto|].
  destruct (isWhiteSpace c) eqn:E; simpl; [exact IH | now rewrite E].
Qed.

Lemma forallb_rev {A} (p : A -> bool) l : forallb p (rev l) = forallb p l.
Proof.
  induction l as [|x l IH]; [reflexivity|]. simpl.
  rewrite forallb_app, IH. simpl. rewrite andb_true_r. apply andb_comm.
Qed.

Lemma trim_nil s : trim s = [] <-> forallb isWhiteSpace s = true.
Proof.
  unfold trim. split.
  - intros H. apply (f_equal (@rev N)) in H. rewrite rev_involutive in H. simpl in H.
    apply trimStart_nil in H. rewrite forallb_rev in H. now apply trimStart_forallb.
  - intros H. apply trimStart_nil in H. rewrite H. reflexivity.
Qed.

(** X7: [checkBody] returns exactly "Unexpected empty body" if and only if
    the body is a single line made of white space only (the empty line
    included). *)
Theorem blank_body_reported lower subject body :
  checkBody lower subject body = Ok [lit "Unexpected empty body"] <->
  exists line, body = [line] /\ forallb isWhiteSpace line = true.
Proof.
  rewrite checkBody_rules. split.
  - intros H. injection H as H. destruct body as [|line body]; [discriminate|].
    cbn [length Nat.eqb nth] in H.
    destruct ((length body =? 0) && str_eqb (trim line) []) eqn:E.
    + apply andb_true_iff in E. destruct E as [E1 E2].
      apply Nat.eqb_eq, length_zero_iff_nil in E1. subst body.
      apply str_eqb_eq, trim_nil in E2. eauto.
    + exfalso.
      assert (Hin : In blankBodyError
                (checkBodyLines 0 (line :: body) ++ duplicateRule lower subject line))
        by (rewrite H; now left).
      apply in_app_or in Hin. destruct Hin as [Hin|Hin]; revert Hin.
      * apply checkBodyLines_not. discriminate.
      * apply duplicateRule_not. discriminate.
  - intros [line [-> Hw]]. cbn [length Nat.eqb nth].
    apply trim_nil, str_eqb_eq in Hw. now rewrite Hw.
Qed.

(** ** What a message needs to pass *)

Section AcceptedFacts.

Variable SET : JSSet.t.
Variable lower : str -> str.

Lemma app3_nil {A} (a b c : list A) : a ++ b ++ c = [] <-> a = [] /\ b = [] /\ c = [].
Proof.
  split.
  - intros H. apply app_eq_nil in H. destruct H as [-> H].
    apply app_eq_nil in H. tauto.
  - now intros [-> [-> ->]].
Qed.

Lemma lengthRule_nil subject s : lengthRule subject s = [] <-> length s <= 50.
Proof.
  unfold lengthRule. destruct (Nat.ltb_spec 50 (length s)); split;
    (discriminate || lia || reflexivity).
Qed.

Lemma dotRule_nil s : dotRule s = [] <-> endsWithChar 46 s = false.
Proof. unfold dotRule. destruct (endsWithChar 46 s); split; congruence. Qed.

Lemma verbRule_nil verbs s :
  verbRule SET lower verbs s = [] <->
  exists w, LeadingWord s w /\
    (In (toLowerCase lower w) SET \/ In (toLowerCase lower w) verbs).
Proof.
  split.
  - intros H. destruct (exec capitalizedWordRe s) as [m|] eqn:E.
    + apply exec_capitalizedWordRe_shape in E. destruct E as [whole [w [-> Hw]]].
      exists w. split; [assumption|].
      rewrite (verbRule_word SET lower verbs Hw) in H.
      destruct (JSSet.has SET _) eqn:E1; [left; now apply has_In|].
      destruct (JSSet.has verbs _) eqn:E2; [right; now apply has_In|].
      simpl in H. discriminate.
    + unfold verbRule in H. rewrite E in H. discriminate.
  - intros [w [Hw Hin]]. rewrite (verbRule_word SET lower verbs Hw).
    destruct Hin as [Hin|Hin]; apply has_In in Hin; rewrite Hin; [reflexivity|].
    now rewrite orb_true_r.
Qed.

Lemma checkSubject_accepts subject verbs :
  checkAdditionalVerbs lower verbs = Ok tt ->
  (checkSubject SET lower subject verbs = Ok [] <->
   SubjectAccepted SET lower verbs subject).
Proof.
  intros Hv. rewrite (checkSubject_rules SET lower subject verbs Hv).
  unfold SubjectAccepted, stripHashCode.
  rewrite <- lengthRule_nil with (subject := subject), <- verbRule_nil, <- dotRule_nil.
  rewrite <- app3_nil. split; [intros H; now injection H | now intros ->].
Qed.

Lemma checkBodyLines_nil i lines :
  checkBodyLines i lines = [] <->
  Forall (fun line => IsUrlLine line \/ IsLinkDefinition line \/ length line <= 72) lines.
Proof.
  revert i. induction lines as [|l lines IH]; intros i; simpl.
  - split; [constructor | reflexivity].
  - fold (isExemptLine l). split.
    + intros H. apply app_eq_nil in H. destruct H as [H1 H2].
      constructor; [|now apply (IH (S i))].
      destruct (isExemptLine l) eqn:E.
      * apply isExemptLine_spec in E. tauto.
      * destruct (Nat.ltb_spec 72 (length l)); [discriminate | tauto].
    + intros H. inversion H as [|? ? Hl Hls]; subst.
      rewrite (proj2 (IH (S i)) Hls), app_nil_r.
      destruct (isExemptLine l) eqn:E; [reflexivity|].
      destruct (Nat.ltb_spec 72 (length l)); [|reflexivity].
      exfalso. destruct Hl as [Hl | [Hl | Hl]]; [| |lia];
        assert (X : isExemptLine l = true) by (apply isExemptLine_spec; tauto);
        congruence.
Qed.

Lemma duplicateRule_nil subject line0 :
  duplicateRule lower subject line0 = [] <->
  ~ (exists ws wb, LeadingWord subject ws /\ LeadingWord line0 wb /\
       toLowerCase lower ws = toLowerCase lower wb).
Proof.
  split.
  - intros H [ws [wb [Hs [Hb He]]]].
    rewrite (duplicateRule_words lower Hs Hb), He, str_eqb_refl in H. discriminate.
  - intros H.
    destruct (exec capitalizedWordRe line0) as [mb|] eqn:Eb;
      [|apply duplicateRule_skipped; right; intros w Hw;
        apply exec_capitalizedWordRe_word in Hw; destruct Hw as [d Hw]; congruence].
    destruct (exec capitalizedWordRe subject) as [ms|] eqn:Es;
      [|apply duplicateRule_skipped; left; intros w Hw;
        apply exec_capitalizedWordRe_word in Hw; destruct Hw as [d Hw]; congruence].
    apply exec_capitalizedWordRe_shape in Eb, Es.
    destruct Eb as [_ [wb [_ Hb]]], Es as [_ [ws [_ Hs]]].
    rewrite (duplicateRule_words lower Hs Hb).
    destruct (str_eqb _ _) eqn:E; [|reflexivity].
    exfalso. apply H. exists ws, wb. apply str_eqb_eq in E. auto.
Qed.

Lemma checkBody_accepts subject body :
  checkBody lower subject body = Ok [] <-> BodyAccepted lower subject body.
Proof.
  rewrite checkBody_rules. unfold BodyAccepted.
  rewrite <- checkBodyLines_nil with (i := 0), <- duplicateRule_nil.
  destruct body as [|line body].
  - simpl. split; [discriminate | intros [H _]; congruence].
  - cbn [length Nat.eqb nth].
    destruct ((length body =? 0) && str_eqb (trim line) []) eqn:E.
    + split; [discriminate|]. intros [_ [H _]]. exfalso. apply H.
      apply andb_true_iff in E. destruct E as [E1 E2].
      apply Nat.eqb_eq, length_zero_iff_nil in E1. subst body.
      apply str_eqb_eq, trim_nil in E2. eauto.
    + split.
      * intros H. injection H as H. apply app_eq_nil in H. destruct H as [H1 H2].
        split; [discriminate|]. split; [|auto].
        intros [l [Hl Hw]]. injection Hl as <- ->.
        apply trim_nil, str_eqb_eq in Hw. rewrite Hw in E. discriminate.
      * intros [_ [_ [-> ->]]]. reflexivity.
Qed.

Lemma check_accepts msg verbs allow :
  checkAdditionalVerbs lower verbs = Ok tt ->
  (check SET lower msg verbs allow = Ok [] <->
   IsMergeMessage msg \/
   (exists subject,
      splitLines msg = [subject] /\ allow = true /\
      SubjectAccepted SET lower verbs subject) \/
   (exists subject body,
      splitLines msg = subject :: [] :: body /\
      SubjectAccepted SET lower verbs subject /\
      BodyAccepted lower subject body)).
Proof.
  intros Hv. destruct (test mergeMessageRe msg) eqn:Hm.
  { rewrite check_merge by assumption. apply test_mergeMessageRe in Hm. tauto. }
  assert (Nm : ~ IsMergeMessage msg)
    by (intros H; apply test_mergeMessageRe in H; congruence).
  destruct (splitLines msg) as [|subject [|sep [|l3 body]]] eqn:El.
  - pose proof (splitLines_length msg) as L. rewrite El in L. simpl in L. lia.
  - destruct allow.
    + rewrite check_one_liner, El by (assumption || now rewrite El).
      cbn [nth]. rewrite (checkSubject_accepts subject verbs Hv). split.
      * intros H. right. left. eauto.
      * intros [H | [[s [E [_ H]]] | [s [b [E _]]]]].
        -- contradiction.
        -- injection E as <-. assumption.
        -- discriminate.
    + rewrite check_too_few by (assumption || now rewrite El). split; [discriminate|].
      intros [H | [[s [_ [E _]]] | [s [b [E _]]]]];
        [contradiction | discriminate | discriminate].
  - rewrite check_two_lines by now rewrite El. split; [discriminate|].
    intros [H | [[s [E _]] | [s [b [E [_ [Hb _]]]]]]];
      [contradiction | discriminate |].
    injection E as _ _ <-. congruence.
  - destruct sep as [|x sep].
    + rewrite check_subject_and_body, El by (rewrite El; simpl; (lia || reflexivity)).
      cbn [nth skipn].
      pose proof (checkSubject_accepts subject verbs Hv) as AS.
      pose proof (checkBody_accepts subject (l3 :: body)) as AB.
      rewrite (checkSubject_rules SET lower subject verbs Hv) in AS |- *.
      rewrite checkBody_rules in AB |- *.
      match type of AS with Ok ?x = _ <-> _ => remember x as se eqn:Hse end.
      match type of AB with Ok ?x = _ <-> _ => remember x as be eqn:Hbe end.
      clear Hse Hbe. cbn [bind]. split.
      * intros H. injection H as H. apply app_eq_nil in H. destruct H as [-> ->].
        right. right. exists subject, (l3 :: body).
        split; [reflexivity|]. split; [now apply AS | now apply AB].
      * intros [H | [[s [E _]] | [s [b [E [H1 H2]]]]]];
          [contradiction | discriminate |].
        injection E as <- <-. apply AS in H1. apply AB in H2.
        injection H1 as ->. injection H2 as ->. reflexivity.
    + rewrite check_bad_separator, El
        by (rewrite El; simpl; (lia || discriminate)).
      split; [discriminate|].
      intros [H | [[s [E _]] | [s [b [E _]]]]];
        [contradiction | discriminate | discriminate].
Qed.

End AcceptedFacts.

(** X8: with valid additional verbs, [check] returns the empty report
    exactly for: a merge message; a one-line message, when one-liners are
    allowed, whose subject passes; a message of a subject, an empty line and
    a body, whose subject and body pass.  The subject passes when, without
    its hash code, it has at most 50 units, starts with a capitalized word
    whose lower-casing is in the table or among the additional verbs, and
    does not end with a dot.  The body passes when it is not one blank
    line, each line is a URL line, a link definition or at most 72 units
    long, and its first word is not that of the subject. *)
Theorem check_accepts_exactly SET lower msg verbs allow :
  ValidVerbs lower verbs ->
  (check SET lower msg verbs allow = Ok [] <->
   IsMergeMessage msg \/
   (exists subject,
      splitLines msg = [subject] /\ allow = true /\
      SubjectAccepted SET lower verbs subject) \/
   (exists subject body,
      splitLines msg = subject :: [] :: body /\
      SubjectAccepted SET lower verbs subject /\
      BodyAccepted lower subject body)).
Proof.
  intros Hv. apply check_accepts. now apply checkAdditionalVerbs_valid, valid_entries.
Qed.

Lemma check_accepts_exactly_witness :
  check sampleVerbs asciiOnly (lit "Do it (#12)" ++ nl ++ nl ++ lit "* Because.") [] false
  = Ok [].
Proof.
  apply (proj2 (@check_accepts_exactly sampleVerbs asciiOnly
                  (lit "Do it (#12)" ++ nl ++ nl ++ lit "* Because.") [] false
                  (Forall_nil _))).
  right. right. exists (lit "Do it (#12)"), [lit "* Because."].
  split; [reflexivity|]. split.
  - split; [vm_compute; lia|]. split; [|reflexivity].
    exists (lit "Do"). split.
    + exists 68%N, (lit "o"), 32%N, (lit "it"). repeat split; reflexivity.
    + left. vm_compute. tauto.
  - split; [discriminate|]. split; [|split].
    + intros [line [E H]]. injection E as <-. vm_compute in H. discriminate.
    + apply Forall_cons; [|apply Forall_nil]. right. right. vm_compute. lia.
    + intros [ws [wb [_ [[c [lows [d [tl [E [-> [Hc _]]]]]]] _]]]].
      simpl in E. injection E as <- _. discriminate Hc.
Defined.

Section MoreVerbs.

Variable lower : str -> str.

Lemma SubjectAccepted_incl SET SET' verbs verbs' subject :
  incl SET SET' -> incl verbs verbs' ->
  SubjectAccepted SET lower verbs subject ->
  SubjectAccepted SET' lower verbs' subject.
Proof.
  intros H1 H2 [Hl [[w [Hw Hin]] Hd]]. split; [assumption|]. split; [|assumption].
  exists w. split; [assumption|]. destruct Hin; [left; now apply H1 | right; now apply H2].
Qed.

Lemma has_same s s' x :
  (forall y, In y s <-> In y s') -> JSSet.has s x = JSSet.has s' x.
Proof.
  intros H. destruct (JSSet.has s x) eqn:E1, (JSSet.has s' x) eqn:E2; try reflexivity.
  - apply has_In, H, has_In in E1. congruence.
  - apply has_In, H, has_In in E2. congruence.
Qed.

Lemma size_same s s' :
  (forall y, In y s <-> In y s') -> (JSSet.size s =? 0) = (JSSet.size s' =? 0).
Proof.
  intros H.
  assert (E : s = [] <-> s' = []).
  { split; intros ->.
    - destruct s' as [|y s']; [reflexivity|]. destruct (proj2 (H y)); now left.
    - destruct s as [|y s]; [reflexivity|]. destruct (proj1 (H y)); now left. }
  destruct (Nat.eqb_spec (JSSet.size s) 0) as [A|A],
           (Nat.eqb_spec (JSSet.size s') 0) as [B|B]; try reflexivity; exfalso.
  - apply B, size_0, E, size_0, A.
  - apply A, size_0, E, size_0, B.
Qed.

Lemma check_by_checkSubject SET SET' verbs verbs' msg allow :
  (forall subject, checkSubject SET lower subject verbs =
                   checkSubject SET' lower subject verbs') ->
  check SET lower msg verbs allow = check SET' lower msg verbs' allow.
Proof.
  intros H. unfold check.
  destruct (test mergeMessageRe msg); [reflexivity|].
  destruct (length (splitLines msg) =? 0); [reflexivity|].
  destruct ((length (splitLines msg) =? 1) && allow); [now rewrite H|].
  destruct (0 <? length (errors (splitSubjectBody (splitLines msg)))); [reflexivity|].
  destruct (subjectBody (splitSubjectBody (splitLines msg))); [now rewrite H | reflexivity].
Qed.

End MoreVerbs.

(** X9: more verbs accept more: a message that passes keeps passing when
    verbs are added to the table or to the additional verbs. *)
Theorem more_verbs_accept_more SET SET' lower msg verbs verbs' allow :
  ValidVerbs lower verbs -> ValidVerbs lower verbs' ->
  incl SET SET' -> incl verbs verbs' ->
  check SET lower msg verbs allow = Ok [] ->
  check SET' lower msg verbs' allow = Ok [].
Proof.
  intros Hv Hv' H1 H2 H.
  apply valid_entries, checkAdditionalVerbs_valid in Hv, Hv'.
  apply (check_accepts SET lower msg verbs allow Hv) in H.
  apply (check_accepts SET' lower msg verbs' allow Hv').
  destruct H as [H | [[s [E [A H]]] | [s [b [E [H B]]]]]]; [tauto | right; left | right; right].
  - exists s. eauto using SubjectAccepted_incl.
  - exists s, b. eauto using SubjectAccepted_incl.
Qed.

Lemma more_verbs_accept_more_witness :
  check (lit "table" :: sampleVerbs) asciiOnly
    (lit "Change SomeClass to OtherClass") [lit "rewrap"] true = Ok [].
Proof.
  apply (@more_verbs_accept_more sampleVerbs (lit "table" :: sampleVerbs) asciiOnly
           (lit "Change SomeClass to OtherClass") [] [lit "rewrap"] true).
  - apply Forall_nil.
  - apply Forall_cons; [|apply Forall_nil]. split; [discriminate | reflexivity].
  - apply incl_tl, incl_refl.
  - apply incl_nil_l.
  - vm_compute. reflexivity.
Defined.

(** X10: the additional verbs and the table count as sets: two valid lists
    of additional verbs with the same entries, in whatever order and
    number, give the same result on every message, and so do two tables
    with the same entries. *)
Theorem verbs_count_as_sets SET SET' lower msg verbs verbs' allow :
  ValidVerbs lower verbs ->
  (forall v, In v verbs <-> In v verbs') ->
  (forall v, In v SET <-> In v SET') ->
  check SET lower msg verbs allow = check SET' lower msg verbs' allow.
Proof.
  intros Hv Hs Ht.
  assert (Hv' : ValidVerbs lower verbs').
  { unfold ValidVerbs in *. rewrite Forall_forall in *. intros v Hin.
    apply Hv, Hs, Hin. }
  apply valid_entries, checkAdditionalVerbs_valid in Hv, Hv'.
  apply check_by_checkSubject. intros subject.
  rewrite (checkSubject_rules SET lower subject verbs Hv).
  rewrite (checkSubject_rules SET' lower subject verbs' Hv').
  unfold verbRule.
  destruct (exec capitalizedWordRe _) as [m|]; [|reflexivity].
  destruct (nth 1 m None) as [w|]; [|reflexivity].
  rewrite (@has_same verbs verbs' _ Hs), (@has_same SET SET' _ Ht).
  now rewrite (@size_same verbs verbs' Hs).
Qed.

Lemma verbs_count_as_sets_witness :
  check sampleVerbs asciiOnly (lit "Rewrap it") [lit "table"; lit "rewrap"] true =
  check (rev sampleVerbs) asciiOnly (lit "Rewrap it")
    [lit "rewrap"; lit "table"; lit "rewrap"] true.
Proof.
  apply verbs_count_as_sets.
  - repeat (apply Forall_cons; [split; [discriminate | reflexivity]|]). apply Forall_nil.
  - intros v. simpl. tauto.
  - intros v. simpl. tauto.
Defined.

(** ** No control characters in the sentences *)

Lemma hexDigit_printable d : isPrintable (hexDigit d) = true.
Proof.
  unfold isPrintable, hexDigit. destruct (N.ltb_spec d 10); apply N.leb_le; lia.
Qed.

Lemma unicodeEscape_printable c : forallb isPrintable (unicodeEscape c) = true.
Proof. unfold unicodeEscape. simpl. now rewrite !hexDigit_printable. Qed.

Lemma quoteBody_printable s : forallb isPrintable (quoteBody s) = true.
Proof.
  assert (G : forall n s, length s <= n -> forallb isPrintable (quoteBody s) = true).
  { clear s. induction n as [|n IH]; intros [|c s] Hl; try reflexivity;
      [simpl in Hl; lia|].
    assert (Hs : forallb isPrintable (quoteBody s) = true)
      by (apply IH; simpl in Hl; lia).
    cbn [quoteBody].
    repeat match goal with
    | |- context [if ?b then _ else _] =>
        match b with
        | isTrailSurrogate _ => fail 1
        | isLeadSurrogate _ => fail 1
        | _ => destruct b eqn:?
        end
    end; rewrite ?forallb_app, ?unicodeEscape_printable, ?Hs; try reflexivity.
    assert (Hc : isPrintable c = true).
    { unfold isPrintable. apply N.leb_le.
      match goal with H : (c <? 32)%N = false |- _ => apply N.ltb_ge in H; exact H end. }
    destruct (isLeadSurrogate c).
    - destruct s as [|d s']; [apply unicodeEscape_printable|].
      destruct (isTrailSurrogate d) eqn:Ed.
      + cbn [forallb]. rewrite Hc.
        assert (Hd : isPrintable d = true).
        { unfold isPrintable, isTrailSurrogate in *. apply andb_true_iff in Ed.
          destruct Ed as [Ed _]. apply N.leb_le in Ed. apply N.leb_le. lia. }
        rewrite Hd. apply IH. simpl in Hl. lia.
      + now rewrite forallb_app, unicodeEscape_printable, Hs.
    - destruct (isTrailSurrogate c).
      + now rewrite forallb_app, unicodeEscape_printable, Hs.
      + cbn [forallb]. now rewrite Hc, Hs. }
  apply (G (length s)). lia.
Qed.

Lemma JSON_stringify_printable s : forallb isPrintable (JSON_stringify s) = true.
Proof.
  unfold JSON_stringify. now rewrite !forallb_app, quoteBody_printable.
Qed.

Lemma ofNat_printable n : forallb isPrintable (ofNat n) = true.
Proof.
  pose proof (ofNat_digits n) as H. revert H. apply forallb_imp.
  intros x Hx. unfold isDigit in Hx. apply andb_true_iff in Hx. destruct Hx as [Hx _].
  apply N.leb_le in Hx. apply N.leb_le. lia.
Qed.

Ltac all_printable :=
  rewrite ?forallb_app, ?JSON_stringify_printable, ?ofNat_printable; reflexivity.

Lemma SubjectError_printable e : SubjectError e -> forallb isPrintable e = true.
Proof.
  destruct 1; unfold subjectLengthError, imperativeMoodError,
    imperativeMoodErrorAdditional, imperativeMoodPrefix; all_printable.
Qed.

Lemma BodyError_printable e : BodyError e -> forallb isPrintable e = true.
Proof. destruct 1; unfold bodyLineLengthError, duplicateWordError; all_printable. Qed.

Lemma StructuralError_printable e : StructuralError e -> forallb isPrintable e = true.
Proof.
  destruct 1; unfold tooFewLinesError, tooFewLinesMultiError, separatorError;
    all_printable.
Qed.

(** X11: no sentence that [check] returns holds a control character below
    the space, whatever the message holds: lines and words are quoted with
    [JSON.stringify], which escapes them.  In particular no sentence holds a
    line feed or a carriage return anywhere, so each stays on one line. *)
Theorem sentences_hold_no_control_characters SET lower msg verbs allow :
  match check SET lower msg verbs allow with
  | Ok errs =>
      Forall (fun e => forallb isPrintable e = true /\ ~ In 10%N e /\ ~ In 13%N e) errs
  | Throw _ => True
  end.
Proof.
  destruct (check SET lower msg verbs allow) as [errs|] eqn:E; [|exact I].
  apply check_errors in E. revert E. apply Forall_impl. intros e He.
  assert (P : forallb isPrintable e = true).
  { destruct He as [He | [He | He]];
      auto using StructuralError_printable, SubjectError_printable, BodyError_printable. }
  split; [exact P|].
  split; apply (forallb_In_false isPrintable); (exact P || reflexivity).
Qed.

(** ** The shape of a report *)

Section ReportShape.

Variable SET : JSSet.t.
Variable lower : str -> str.

Lemma checkSubject_at_most_three subject verbs errs :
  checkSubject SET lower subject verbs = Ok errs ->
  Forall SubjectError errs /\ length errs <= 3.
Proof.
  intros H. split; [now apply checkSubject_errors in H|].
  destruct (checkAdditionalVerbs lower verbs) as [[]|m] eqn:E.
  - rewrite (checkSubject_rules SET lower subject verbs E) in H. injection H as <-.
    rewrite !length_app. unfold lengthRule, verbRule, dotRule.
    destruct (50 <? _); destruct (exec capitalizedWordRe _) as [m|];
      try destruct (nth 1 m None); try destruct (_ && _);
      destruct (endsWithChar 46 _); simpl; lia.
  - unfold checkSubject in H. rewrite E in H. discriminate.
Qed.

Lemma checkBodyLines_length i lines : length (checkBodyLines i lines) <= length lines.
Proof.
  revert i. induction lines as [|l lines IH]; intros i; simpl; [lia|].
  rewrite length_app. specialize (IH (S i)).
  destruct (_ || _); [simpl; lia|]. destruct (72 <? length l); simpl; lia.
Qed.

Lemma duplicateRule_length subject line0 :
  length (duplicateRule lower subject line0) <= 1.
Proof.
  unfold duplicateRule.
  destruct (exec capitalizedWordRe line0) as [mb|]; [|simpl; lia].
  destruct (exec capitalizedWordRe subject) as [ms|]; [|simpl; lia].
  destruct (nth 1 ms None); [|simpl; lia]. destruct (nth 1 mb None); [|simpl; lia].
  destruct (str_eqb _ _); simpl; lia.
Qed.

Lemma checkBody_at_most subject body errs :
  checkBody lower subject body = Ok errs ->
  Forall BodyError errs /\ length errs <= S (length body).
Proof.
  intros H. split; [now apply checkBody_errors in H|].
  rewrite checkBody_rules in H. injection H as <-.
  destruct (length body =? 0); [simpl; lia|]. destruct (_ && _); [simpl; lia|].
  rewrite length_app.
  pose proof (checkBodyLines_length 0 body).
  pose proof (duplicateRule_length subject (nth 0 body [])). lia.
Qed.

End ReportShape.

(** X12: a report of [check] is either one structural sentence alone, or at
    most three subject sentences followed by the body sentences, which
    number at most one per body line and one more, that is fewer than the
    logical lines of the message. *)
Theorem report_shape SET lower msg verbs allow :
  match check SET lower msg verbs allow with
  | Ok errs =>
      (exists e, StructuralError e /\ errs = [e]) \/
      (exists subjectErrors bodyErrors,
         errs = subjectErrors ++ bodyErrors /\
         Forall SubjectError subjectErrors /\ length subjectErrors <= 3 /\
         Forall BodyError bodyErrors /\
         length bodyErrors <= length (splitLines msg) - 1)
  | Throw _ => True
  end.
Proof.
  destruct (check SET lower msg verbs allow) as [errs|] eqn:E; [|exact I]. revert E.
  destruct (test mergeMessageRe msg) eqn:Hm.
  { rewrite check_merge by assumption. intros H. injection H as <-.
    right. exists [], []. simpl. repeat split; try lia; constructor. }
  pose proof (splitLines_length msg) as Hpos.
  destruct (Nat.eq_dec (length (splitLines msg)) 1) as [H1|H1];
    [|destruct (Nat.eq_dec (length (splitLines msg)) 2) as [H2|H2]].
  - destruct allow.
    + rewrite check_one_liner by assumption. intros H.
      apply checkSubject_at_most_three in H. destruct H as [F L].
      right. exists errs, []. rewrite app_nil_r. simpl.
      repeat split; try assumption; try lia; constructor.
    + rewrite check_too_few by assumption. intros H. injection H as <-.
      left. eexists. split; [constructor | reflexivity].
  - rewrite check_two_lines by assumption. intros H. injection H as <-.
    left. eexists. split; [constructor | reflexivity].
  - destruct (nth 1 (splitLines msg) []) as [|x l] eqn:Hs.
    + rewrite check_subject_and_body by (assumption || lia).
      destruct (checkSubject _ _ _ _) as [e1|] eqn:E1; [|discriminate].
      destruct (checkBody _ _ _) as [e2|] eqn:E2; [|discriminate].
      cbn [bind]. intros H. injection H as <-.
      apply checkSubject_at_most_three in E1. apply checkBody_at_most in E2.
      destruct E1 as [F1 L1], E2 as [F2 L2].
      right. exists e1, e2. repeat split; try assumption.
      rewrite length_skipn in L2. lia.
    + rewrite check_bad_separator by (lia || (rewrite Hs; discriminate)).
      intros H. injection H as <-.
      left. eexists. split; [constructor | reflexivity].
Qed.

(** ** Valid additional verbs *)

Lemma map_lowerAscii_id v :
  forallb (fun c => negb (isUpper c)) v = true -> map lowerAscii v = v.
Proof.
  induction v as [|c v IH]; [reflexivity|]. simpl. intros H.
  apply andb_true_iff in H. destruct H as [Hc Hv]. rewrite (IH Hv).
  unfold lowerAscii. apply negb_true_iff in Hc. now rewrite Hc.
Qed.

Lemma map_lowerAscii_changes v :
  forallb (fun c => negb (isUpper c)) v = false -> map lowerAscii v <> v.
Proof.
  induction v as [|c v IH]; [discriminate|]. simpl. intros H E.
  injection E as Ec Ev. destruct (isUpper c) eqn:Hc.
  - unfold lowerAscii in Ec. rewrite Hc in Ec. lia.
  - simpl in H. now apply IH.
Qed.

(** X13: an additional verb written in ASCII passes the pre-condition of
    [checkSubject] exactly when it is not empty and holds no letter of
    [A-Z], whatever the case tables of the runtime. *)
Theorem ascii_verb_valid lower verb :
  forallb isAscii verb = true ->
  (isValidVerb lower verb = true <->
   verb <> [] /\ forallb (fun c => negb (isUpper c)) verb = true).
Proof.
  intros Ha. unfold isValidVerb, toLowerCase. rewrite Ha.
  rewrite andb_true_iff, negb_true_iff, Nat.eqb_neq, str_eqb_eq, length_zero_iff_nil.
  split; intros [Hn H]; (split; [assumption|]).
  - destruct (forallb (fun c => negb (isUpper c)) verb) eqn:E; [reflexivity|].
    apply map_lowerAscii_changes in E. congruence.
  - symmetry. now apply map_lowerAscii_id.
Qed.

Lemma ascii_verb_valid_witness :
  isValidVerb asciiOnly (lit "unit-test") = true /\
  ~ isValidVerb asciiOnly (lit "reWrap") = true.
Proof.
  split.
  - apply (proj2 (@ascii_verb_valid asciiOnly (lit "unit-test") eq_refl)).
    split; [discriminate | reflexivity].
  - intros H. apply (proj1 (@ascii_verb_valid asciiOnly (lit "reWrap") eq_refl)) in H.
    destruct H as [_ H]. discriminate.
Defined.

(** ** The patterns, one by one *)

(** X14: [subject.replace(suffixHashCodeRe, '')] returns a prefix of the
    subject; what it removes is nothing, a parenthesized hash code, or one
    unit of white space and a parenthesized hash code; and it removes
    nothing only when the subject does not end with a parenthesized hash
    code. *)
Theorem stripHashCode_removes subject :
  exists t,
    subject = stripHashCode subject ++ t /\
    (t = [] \/ IsHashCode t \/
     exists w t', t = w :: t' /\ isWhiteSpace w = true /\ IsHashCode t') /\
    (t = [] -> forall p t0, subject = p ++ t0 -> ~ IsHashCode t0).
Proof.
  unfold stripHashCode, Regex.replace.
  destruct (search suffixHashCodeRe subject) as [[i st]|] eqn:E.
  - unfold search in E. apply searchFrom_Some in E.
    destruct E as [d [-> [Hd [Hs _]]]]. simpl in *.
    apply Steps_suffixHashCodeRe in Hs. destruct Hs as [-> Hs]. simpl in Hs.
    exists (skipn d subject). rewrite app_nil_r.
    split; [symmetry; apply firstn_skipn|]. split.
    + destruct Hs as [Hs | Hs]; auto.
    + intros Ht. exfalso. rewrite Ht in Hs.
      destruct Hs as [Hs | [w [t' [Hs _]]]]; [|discriminate].
      apply hashCode_shape in Hs. destruct Hs as [b [Hs _]]. discriminate.
  - exists []. rewrite app_nil_r. split; [reflexivity|]. split; [now left|].
    intros _ p t0 -> Ht.
    destruct (search_suffixHashCodeRe p Ht) as [i [st [E' _]]]. congruence.
Qed.

(** X15: a parenthesized hash code at the end of a subject is removed, and
    with it the unit of white space before it when there is one, but no
    more than one. *)
Theorem hash_code_suffix_stripped p t :
  IsHashCode t ->
  (forall w, isWhiteSpace w = true -> stripHashCode (p ++ w :: t) = p) /\
  ((forall p' w, p = p' ++ [w] -> isWhiteSpace w = false) ->
   stripHashCode (p ++ t) = p).
Proof.
  intros Ht. split.
  - intros w Hw. now apply stripHashCode_space_suffix.
  - intros Hp. now apply stripHashCode_suffix.
Qed.

Lemma hash_code_suffix_stripped_witness :
  stripHashCode (lit "Fix it " ++ 32%N :: lit "( #a_1 )") = lit "Fix it " /\
  stripHashCode (lit "Fix it" ++ lit "(#43)") = lit "Fix it".
Proof.
  assert (H1 : IsHashCode (lit "( #a_1 )")).
  { exists (lit " "), (lit "a_1"), (lit " "). repeat split; discriminate. }
  assert (H2 : IsHashCode (lit "(#43)")).
  { exists [], (lit "43"), []. repeat split; discriminate. }
  split.
  - apply (proj1 (hash_code_suffix_stripped (lit "Fix it ") H1)). reflexivity.
  - apply (proj2 (hash_code_suffix_stripped (lit "Fix it") H2)).
    intros p' w E.
    assert (L : last (lit "Fix it") 0%N = w) by (rewrite E; apply last_last).
    rewrite <- L. reflexivity.
Defined.

(** X16: [mergeMessageRe] matches exactly the messages of the form
    [Merge branch '<ref>' into <ref>] with two non-empty refs free of
    control characters, space and [~ ^ : ? * []; such a message is its own
    single logical line. *)
Theorem merge_pattern_matches msg :
  (test mergeMessageRe msg = true <-> IsMergeMessage msg) /\
  (IsMergeMessage msg -> splitLines msg = [msg]).
Proof.
  split; [apply test_mergeMessageRe|]. intros H.
  assert (Hlf : forallb (fun x => negb (x =? 10)%N) msg = true)
    by now apply IsMergeMessage_one_line.
  rewrite splitLines_map, (split_no_sep _ _ Hlf). simpl. f_equal.
  unfold dropTrailingCr. destruct (endsWithChar 13 msg) eqn:E; [|reflexivity].
  exfalso. apply endsWithChar_true in E. destruct E as [p E].
  destruct H as [ref1 [ref2 [Hm [_ [Hn [_ H2]]]]]].
  destruct (exists_last Hn) as [r [c ->]].
  rewrite forallb_app in H2. apply andb_true_iff in H2. destruct H2 as [_ Hc].
  simpl in Hc. rewrite andb_true_r in Hc.
  rewrite Hm, !app_assoc in E. apply app_inj_tail in E. destruct E as [_ ->].
  discriminate.
Qed.

Lemma merge_pattern_matches_witness :
  splitLines (lit "Merge branch 'dev' into master") = [lit "Merge branch 'dev' into master"].
Proof.
  apply (proj2 (merge_pattern_matches (lit "Merge branch 'dev' into master"))).
  exists (lit "dev"), (lit "master"). repeat split; discriminate.
Defined.

(** X17: the two exemptions of the body: [urlLineRe] matches exactly the
    lines [scheme://rest] with both parts non-empty and free of spaces, and
    [linkDefinitionRe] exactly the lines [[label]: scheme://rest], with a
    non-empty label free of the closing bracket and optional white space
    around the colon; a line that holds a space is never a URL line. *)
Theorem exempt_line_patterns line :
  (test urlLineRe line = true <-> IsUrlLine line) /\
  (test linkDefinitionRe line = true <-> IsLinkDefinition line) /\
  (In 32%N line -> test urlLineRe line = false).
Proof.
  split; [apply test_urlLineRe|]. split; [apply test_linkDefinitionRe|].
  intros Hin. destruct (test urlLineRe line) eqn:E; [|reflexivity].
  exfalso. apply test_urlLineRe in E. destruct E as [a [b [-> [_ [_ [Ha Hb]]]]]].
  apply in_app_or in Hin. destruct Hin as [Hin|Hin].
  - revert Hin. now apply (@forallb_In_false notSpace).
  - apply in_app_or in Hin. destruct Hin as [Hin|Hin].
    + revert Hin. now apply (@forallb_In_false notSpace).
    + revert Hin. now apply (@forallb_In_false notSpace).
Qed.

Lemma exempt_line_patterns_witness :
  test urlLineRe (lit "see http://example.com/a") = false.
Proof.
  apply (proj2 (proj2 (exempt_line_patterns (lit "see http://example.com/a")))).
  vm_compute. tauto.
Defined.

(** X18: [capitalizedWordRe.exec] returns [null] exactly when the string has
    no leading capitalized word; otherwise the match array has two
    elements, the whole match and the leading word as group 1, so the test
    on the length of the match and the reads of element 1 never fail. *)
Theorem capitalized_word_match s :
  (exec capitalizedWordRe s = None <-> forall w, ~ LeadingWord s w) /\
  (forall m, exec capitalizedWordRe s = Some m ->
     exists whole w, m = [Some whole; Some w] /\ LeadingWord s w /\
                     length m = 2 /\ nth 1 m None = Some w) /\
  (forall w, LeadingWord s w ->
     exists whole, exec capitalizedWordRe s = Some [Some whole; Some w]).
Proof.
  split; [|split].
  - split; [|apply exec_capitalizedWordRe_null].
    intros E w Hw. apply exec_capitalizedWordRe_word in Hw. destruct Hw as [d Hw].
    congruence.
  - intros m E. apply exec_capitalizedWordRe_shape in E.
    destruct E as [whole [w [-> Hw]]]. exists whole, w. auto.
  - intros w Hw. apply exec_capitalizedWordRe_word in Hw. destruct Hw as [d Hw]. eauto.
Qed.

Lemma capitalized_word_match_witness :
  exists whole, exec capitalizedWordRe (lit "Fix-up the docs")
                = Some [Some whole; Some (lit "Fix")].
Proof.
  apply (proj2 (proj2 (capitalized_word_match (lit "Fix-up the docs")))).
  exists 70%N, (lit "ix"), 45%N, (lit "up the docs"). repeat split; reflexivity.
Defined.

(** ** The length sentences in line order *)




